(** * Urban-rural income notebook: synthetic panel generator and evaluation harness

    A shallow embedding of the notebook
    [实验五城乡收入预测实验完整代码.ipynb].  The six code cells are translated
    one by one:

    - cell 1 (data generation) is a program over the draws of numpy's global
      random state, so every statement about "which distribution a column is
      drawn from" is a statement about the draws the program requests;
    - cells 2-6 (split, scaling, models, regional loop, policy simulation)
      run in a state-and-error monad over the notebook's world: the global
      random state, the wall clock, the heap of mutable objects and standard
      output.

    Numbers: Python floats are modelled as exact rationals ([Q]); rounding is
    outside this model.  numpy, scikit-learn and shap are not part of the
    repository: their routines are fields of the records [numpy] and
    [sklearn], and the few facts the proofs need about them are stated as
    explicit hypotheses. *)

From Stdlib Require Import QArith Qminmax Qround Lqa.
From stdpp Require Import gmap strings list pretty.

Set Default Proof Using "Type".
#[local] Set Warnings "-clear-no-such-hyp".

(** ** Data model *)

(** The three region labels ['东部'], ['中部'], ['西部'] of the source. *)
Inductive Region := East | Central | West.

#[global] Instance Region_eq_dec : EqDecision Region.
Proof. solve_decision. Defined.

(** One element of [data]: the thirteen values appended per city and year,
    named by [columns]. *)
Record row := Row {
  city : string;
  year : Z;
  region : Region;
  gdp_pc : Q;
  net_access : Q;
  edu_exp : Q;
  med_exp : Q;
  urban_ratio : Q;
  policy_index : Q;
  infra_score : Q;
  unemp_rate : Q;
  rural_income : Q;
  urban_income : Q
}.

(** ** The global random state of numpy *)

(** The calls the notebook (and the splitter it calls) make on numpy's global
    [RandomState], with their arguments as written in the source. *)
Inductive randE : Type → Type :=
| Seed (n : Z) : randE unit
| Choice (a : list Region) (size : nat) (p : list Q) : randE (list Region)
| Normal (loc scale : Q) : randE Q
| Uniform (low high : Q) : randE Q
| Permute (n : nat) : randE (list nat).

(** Programs that draw from the global random state. *)
Inductive Rand (A : Type) : Type :=
| Ret (a : A)
| Draw {X : Type} (e : randE X) (k : X → Rand A).
Arguments Ret {A} a.
Arguments Draw {A X} e k.

Fixpoint bind {A B : Type} (m : Rand A) (f : A → Rand B) : Rand B :=
  match m with
  | Ret a => f a
  | Draw e k => Draw e (λ x, bind (k x) f)
  end.

#[global] Instance Rand_ret : MRet Rand := @Ret.
#[global] Instance Rand_bind : MBind Rand := λ A B f m, bind m f.

Definition draw {X : Type} (e : randE X) : Rand X := Draw e Ret.

(** numpy's random routines, as a record of state-passing functions. *)
Record numpy := Numpy {
  rng : Type;
  np_seed : Z → rng;
  np_choice : list Region → nat → list Q → rng → list Region * rng;
  np_normal : Q → Q → rng → Q * rng;
  np_uniform : Q → Q → rng → Q * rng;
  np_permutation : nat → rng → list nat * rng
}.

Definition handle (np : numpy) {X : Type} (e : randE X) : rng np → X * rng np :=
  match e in randE X return rng np → X * rng np with
  | Seed n => λ _, (tt, np_seed np n)
  | Choice a size p => np_choice np a size p
  | Normal loc scale => np_normal np loc scale
  | Uniform low high => np_uniform np low high
  | Permute n => np_permutation np n
  end.

(** One answered call: the request and the value numpy returned. *)
Inductive event : Type :=
| SeedEv (n : Z)
| ChoiceEv (a : list Region) (size : nat) (p : list Q) (labels : list Region)
| NormalEv (loc scale : Q) (x : Q)
| UniformEv (low high : Q) (x : Q)
| PermuteEv (n : nat) (permutation : list nat).

Definition answered {X : Type} (e : randE X) : X → event :=
  match e in randE X return X → event with
  | Seed n => λ _, SeedEv n
  | Choice a size p => ChoiceEv a size p
  | Normal loc scale => NormalEv loc scale
  | Uniform low high => UniformEv low high
  | Permute n => PermuteEv n
  end.

(** Running a program: its result, the random state it leaves and the calls
    it made, in order. *)
Fixpoint exec (np : numpy) {A : Type} (m : Rand A) (s : rng np)
    : A * rng np * list event :=
  match m with
  | Ret a => (a, s, [])
  | Draw e k =>
      let '(x, s1) := handle np e s in
      let '(a, s2, tr) := exec np (k x) s1 in
      (a, s2, answered e x :: tr)
  end.

Definition result (np : numpy) {A : Type} (m : Rand A) (s : rng np) : A :=
  (exec np m s).1.1.
Definition final (np : numpy) {A : Type} (m : Rand A) (s : rng np) : rng np :=
  (exec np m s).1.2.
Definition trace (np : numpy) {A : Type} (m : Rand A) (s : rng np) : list event :=
  (exec np m s).2.

(** ** Cell 1: data generation *)

(** [for x in l: body], threading the variables the body updates. *)
Fixpoint for_ {A S : Type} (l : list A) (body : A → S → Rand S) (acc : S) : Rand S :=
  match l with
  | [] => mret acc
  | x :: l' => acc' ← body x acc; for_ l' body acc'
  end.

(** [range(lo, hi)] *)
Definition range (lo hi : Z) : list Z := seqZ lo (hi - lo).

(** [np.clip(x, lo, hi)]: [minimum(maximum(x, lo), hi)]. *)
Definition clip (x lo hi : Q) : Q := Qmin (Qmax x lo) hi.

(** [[f"City_{i+1}" for i in range(100)]] *)
Definition cities : list string :=
  (λ i : nat, "City_" +:+ pretty (i + 1)%nat) <$> seq 0 100.

Local Open Scope Q_scope.

(** The body of the inner loop up to the list that is appended to [data]. *)
Definition gen_row (city : string) (region : Region) (year : Z) : Rand row :=
  gdp_pc ← draw (Normal (if decide (region = East) then 80000
                         else if decide (region = Central) then 50000
                         else 30000) 5000);
  net_access ←
    (x ← draw (Normal (if decide (region = East) then 0.9 else 0.75) 0.1);
     mret (clip x 0.5 1.0));
  edu_exp ← draw (Normal 15000 2000);
  med_exp ← draw (Normal 10000 1500);
  urban_ratio ←
    (x ← draw (Normal (if decide (region = East) then 0.7 else 0.6) 0.1);
     mret (clip x 0.3 0.95));
  policy_index ← draw (Uniform 0 1);
  infra_score ←
    (e ← draw (Normal 0 5);
     mret (net_access * 50 + urban_ratio * 30 + e));
  unemp_rate ←
    (x ← draw (Normal 0.08 0.03);
     mret (clip x 0.03 0.15));
  rural_income ←
    (u ← draw (Uniform 0.3 0.5);
     mret (gdp_pc * u + policy_index * 5000 - unemp_rate * 2000));
  urban_income ←
    (u ← draw (Uniform 0.6 0.9);
     mret (gdp_pc * u));
  mret (Row city year region gdp_pc net_access edu_exp med_exp urban_ratio
            policy_index infra_score unemp_rate rural_income urban_income).

(** The cell: seed, one label per city, then the two nested loops appending
    to [data]; [df] holds the rows of [data] in order. *)
Definition generate : Rand (list row) :=
  _ ← draw (Seed 42);
  regions ← draw (Choice [East; Central; West] 100 [0.4; 0.3; 0.3]);
  data ← for_ (zip cities regions) (λ '(city, region) data,
            for_ (range 2018 2023) (λ year data,
              r ← gen_row city region year;
              mret (data ++ [r])) data) [];
  mret data.

Local Close Scope Q_scope.

(** ** Libraries and the notebook's world *)

Definition vec := list Q.
Definition matrix := list (list Q).

(** The estimators the notebook constructs, with the arguments it passes. *)
Inductive estimator :=
| Ridge
| RandomForestRegressor (n_estimators : nat)
| XGBRegressor (n_estimators : nat)
| CatBoostRegressor.

(** What the notebook calls besides numpy's random routines.  [fit_ridge] is
    a function of the training data alone (ridge regression on dense input
    draws nothing); every other estimator, and the shap explainer, may draw
    from the global random state.  [seeded_permutation seed n] is
    [RandomState(seed).permutation(n)], which leaves the global state
    alone. *)
Record library := Library {
  np :> numpy;
  seeded_permutation : Z → nat → list nat;
  np_sqrt : Q → Q;
  model : Type;
  fit_ridge : matrix → vec → model;
  fit_random : estimator → matrix → vec → rng np → model * rng np;
  predict : model → matrix → vec;
  mean_squared_error : vec → vec → Q;
  r2_score : vec → vec → Q;
  shap_explain : (matrix → vec) → matrix → matrix → rng np → matrix * rng np;
  clock : Type;
  time_time : clock → Q * clock
}.

(** A data frame of numeric columns: [X], [X_train], [X_test], [X_sim]. *)
Record frame := Frame { columns : list string; values : matrix }.

(** The attributes [StandardScaler.fit] sets. *)
Record scaler_params := ScalerParams { mean_ : vec; var_ : vec; scale_ : vec }.

(** Objects that are updated in place or copied live on the heap and are
    named by their address: the data frames [X_test] and [X_sim], and the
    scaler (unfitted until [fit_transform] runs).  Everything else the
    notebook binds is never updated after it is built and is a plain value. *)
Definition loc := positive.
Inductive obj :=
| DataFrame (f : frame)
| StandardScaler (fitted : option scaler_params).

(** A printed line, with the numbers as computed (the format specifiers
    [.2f] and [.3f] only round what is shown), and the bar chart. *)
Inductive line :=
| ModelReport (name : string) (rmse r2 seconds : Q)
| RegionReport (region : Region) (r2 : Q)
| PolicyReport (delta : Q)
| BarChart (shap_values : matrix).

Record world (lib : library) := World {
  w_rng : rng lib;
  w_clock : clock lib;
  w_heap : gmap loc obj;
  w_stdout : list line
}.
Arguments World {lib} _ _ _ _.
Arguments w_rng {lib} _.
Arguments w_clock {lib} _.
Arguments w_heap {lib} _.
Arguments w_stdout {lib} _.

(** Notebook code: it updates the world, or stops with an exception. *)
Definition NB (lib : library) (A : Type) : Type := world lib → option (A * world lib).

#[global] Instance NB_ret lib : MRet (NB lib) := λ A a w, Some (a, w).
#[global] Instance NB_bind lib : MBind (NB lib) := λ A B f m w,
  match m w with
  | Some (a, w') => f a w'
  | None => None
  end.

Section notebook.
Context (lib : library).
Local Abbreviation NB := (NB lib).

Definition raise {A : Type} : NB A := λ _, None.

Definition from_option {A : Type} (o : option A) : NB A :=
  match o with Some a => mret a | None => raise end.

(** Code that draws from the global random state. *)
Definition np_run {A : Type} (m : Rand A) : NB A := λ w,
  let '(a, s, _) := exec lib m (w_rng w) in
  Some (a, World s (w_clock w) (w_heap w) (w_stdout w)).

(** Library routines that take and return the global random state. *)
Definition with_rng {A : Type} (f : rng lib → A * rng lib) : NB A := λ w,
  let '(a, s) := f (w_rng w) in
  Some (a, World s (w_clock w) (w_heap w) (w_stdout w)).

(** [time.time()] *)
Definition now : NB Q := λ w,
  let '(t, c) := time_time lib (w_clock w) in
  Some (t, World (w_rng w) c (w_heap w) (w_stdout w)).

(** [print(...)] *)
Definition emit (l : line) : NB unit := λ w,
  Some (tt, World (w_rng w) (w_clock w) (w_heap w) (w_stdout w ++ [l])).

Definition alloc (o : obj) : NB loc := λ w,
  let l := fresh (dom (w_heap w)) in
  Some (l, World (w_rng w) (w_clock w) (<[l := o]> (w_heap w)) (w_stdout w)).

Definition deref (l : loc) : NB obj := λ w,
  match w_heap w !! l with
  | Some o => Some (o, w)
  | None => None
  end.

Definition assign (l : loc) (o : obj) : NB unit := λ w,
  Some (tt, World (w_rng w) (w_clock w) (<[l := o]> (w_heap w)) (w_stdout w)).

Definition deref_frame (l : loc) : NB frame :=
  o ← deref l;
  match o with DataFrame f => mret f | _ => raise end.

(** [for x in l: body] for a body that binds nothing the rest reads. *)
Fixpoint for_each {A : Type} (l : list A) (body : A → NB unit) : NB unit :=
  match l with
  | [] => mret tt
  | x :: l' => _ ← body x; for_each l' body
  end.

(** *** pandas *)

(** The numeric columns of a generated row, by name. *)
Definition numeric (r : row) : list (string * Q) :=
  [("gdp_pc", gdp_pc r); ("net_access", net_access r); ("edu_exp", edu_exp r);
   ("med_exp", med_exp r); ("urban_ratio", urban_ratio r);
   ("policy_index", policy_index r); ("infra_score", infra_score r);
   ("unemp_rate", unemp_rate r); ("rural_income", rural_income r);
   ("urban_income", urban_income r)]%string.

Fixpoint assoc (c : string) (l : list (string * Q)) : option Q :=
  match l with
  | [] => None
  | (k, v) :: l' => if decide (k = c) then Some v else assoc c l'
  end.

(** [df[cols]] for a list of column names; a missing name is a [KeyError]. *)
Definition select (cols : list string) (df : list row) : option frame :=
  Frame cols <$> mapM (λ r, mapM (λ c, assoc c (numeric r)) cols) df.

(** [df[col]] *)
Definition series (col : string) (df : list row) : option vec :=
  mapM (λ r, assoc col (numeric r)) df.

(** [Series.unique()]: the distinct values in order of first appearance. *)
Fixpoint unique_from {A : Type} `{EqDecision A} (seen l : list A) : list A :=
  match l with
  | [] => []
  | x :: l' =>
      if decide (x ∈ seen) then unique_from seen l'
      else x :: unique_from (x :: seen) l'
  end.
Definition unique {A : Type} `{EqDecision A} (l : list A) : list A := unique_from [] l.

Definition column_index (col : string) (cols : list string) : option nat :=
  fst <$> list_find (λ c, c = col) cols.

(** [X.copy()]: a new object with the same contents. *)
Definition frame_copy (l : loc) : NB loc :=
  f ← deref_frame l;
  alloc (DataFrame f).

(** [X[col] += c]: the object named by [X] is updated in place. *)
Definition frame_iadd (l : loc) (col : string) (c : Q) : NB unit :=
  f ← deref_frame l;
  j ← from_option (column_index col (columns f));
  assign l (DataFrame (Frame (columns f) ((λ r, alter (λ x, (x + c)%Q) j r) <$> values f))).

(** *** scikit-learn *)

(** [train_test_split(X, y, test_size=..., random_state=...)]: the first
    [n_test = ceil(test_size * n)] entries of a permutation of [range(n)]
    index the test rows, the remaining [n - n_test] the training rows.  With
    [random_state=seed] the permutation comes from a generator of its own;
    without it, from the global random state. *)
Definition index {A : Type} (l : list A) (ind : list nat) : NB (list A) :=
  from_option (mapM (λ i, l !! i) ind).

Definition n_test_of (test_size : Q) (n_samples : nat) : nat :=
  Z.to_nat (Qceiling (test_size * inject_Z (Z.of_nat n_samples))).

Definition train_test_split {A B : Type} (X : list A) (y : list B)
    (test_size : Q) (random_state : option Z)
    : NB (list A * list A * list B * list B) :=
  let n_samples := length X in
  if decide (length y = n_samples) then
    let n_test := n_test_of test_size n_samples in
    let n_train := (n_samples - n_test)%nat in
    if decide (n_train = 0%nat) then raise else
    permutation ← match random_state with
                  | Some seed => mret (seeded_permutation lib seed n_samples)
                  | None => np_run (draw (Permute n_samples))
                  end;
    let ind_test := take n_test permutation in
    let ind_train := take n_train (drop n_test permutation) in
    X_train ← index X ind_train;
    X_test ← index X ind_test;
    y_train ← index y ind_train;
    y_test ← index y ind_test;
    mret (X_train, X_test, y_train, y_test)
  else raise.

(** [StandardScaler]: per-column mean and (population) variance; the scale
    is the square root of the variance, or 1 for a constant column. *)
Definition sum (l : vec) : Q := foldr Qplus 0%Q l.
Definition mean (l : vec) : Q := (sum l / inject_Z (Z.of_nat (length l)))%Q.
Definition variance (l : vec) : Q :=
  mean ((λ x, ((x - mean l) * (x - mean l))%Q) <$> l).
Definition column (j : nat) (X : matrix) : vec := (λ r, default 0%Q (r !! j)) <$> X.
Definition rectangular (n : nat) (X : matrix) : Prop := Forall (λ r, length r = n) X.

Definition standard_fit (X : matrix) : option scaler_params :=
  match X with
  | [] => None
  | r :: _ =>
      if decide (rectangular (length r) X) then
        let cols := (λ j, column j X) <$> seq 0 (length r) in
        Some {| mean_ := mean <$> cols;
                var_ := variance <$> cols;
                scale_ := (λ c, if Qeq_bool (variance c) 0 then 1%Q
                                else np_sqrt lib (variance c)) <$> cols |}
      else None
  end.

Definition standard_transform (p : scaler_params) (X : matrix) : option matrix :=
  if decide (rectangular (length (mean_ p)) X) then
    Some ((λ r, zip_with (λ x ms, ((x - ms.1) / ms.2)%Q) r (zip (mean_ p) (scale_ p))) <$> X)
  else None.

(** [scaler.fit_transform(X)]: the scaler object is updated in place. *)
Definition fit_transform (sc : loc) (X : frame) : NB matrix :=
  o ← deref sc;
  match o with
  | StandardScaler _ =>
      p ← from_option (standard_fit (values X));
      _ ← assign sc (StandardScaler (Some p));
      from_option (standard_transform p (values X))
  | _ => raise
  end.

(** [scaler.transform(X)]: reads the fitted attributes; unfitted is an error. *)
Definition transform (sc : loc) (X : frame) : NB matrix :=
  o ← deref sc;
  match o with
  | StandardScaler (Some p) => from_option (standard_transform p (values X))
  | _ => raise
  end.

(** [estimator.fit(X, y)] *)
Definition fit (e : estimator) (X : matrix) (y : vec) : NB (model lib) :=
  match e with
  | Ridge => mret (fit_ridge lib X y)
  | _ => with_rng (fit_random lib e X y)
  end.

(** [model.score(X, y)]: the coefficient of determination of the prediction. *)
Definition score (m : model lib) (X : matrix) (y : vec) : Q :=
  r2_score lib y (predict lib m X).

(** ** Cell 2: features, split and standardization *)

Definition X_columns : list string :=
  ["gdp_pc"; "net_access"; "edu_exp"; "med_exp"; "urban_ratio";
   "policy_index"; "infra_score"; "unemp_rate"]%string.

(** The names cell 2 binds. *)
Record cell2_vars := Cell2 {
  X : frame;
  y : vec;
  X_train : frame;
  X_test : loc;
  y_train : vec;
  y_test : vec;
  scaler : loc;
  X_train_scaled : matrix;
  X_test_scaled : matrix
}.

Definition cell2 (df : list row) : NB cell2_vars :=
  X ← from_option (select X_columns df);
  y ← from_option (series "rural_income" df);
  '(X_train, X_test, y_train, y_test) ← train_test_split (values X) y 0.2 (Some 0%Z);
  let X_train := Frame (columns X) X_train in
  X_test ← alloc (DataFrame (Frame (columns X) X_test));
  scaler ← alloc (StandardScaler None);
  X_train_scaled ← fit_transform scaler X_train;
  X_test_now ← deref_frame X_test;
  X_test_scaled ← transform scaler X_test_now;
  mret (Cell2 X y X_train X_test y_train y_test scaler X_train_scaled X_test_scaled).

(** ** Cell 3: models and their metrics *)

Definition train_and_evaluate (g : cell2_vars) (m : estimator) (name : string) : NB unit :=
  start ← now;
  fitted ← fit m (X_train_scaled g) (y_train g);
  let y_pred := predict lib fitted (X_test_scaled g) in
  end_ ← now;
  let rmse := np_sqrt lib (mean_squared_error lib (y_test g) y_pred) in
  let r2 := r2_score lib (y_test g) y_pred in
  emit (ModelReport name rmse r2 (end_ - start)).

Definition cell3 (g : cell2_vars) : NB unit :=
  _ ← train_and_evaluate g Ridge "Ridge回归";
  _ ← train_and_evaluate g (RandomForestRegressor 100) "随机森林";
  _ ← train_and_evaluate g (XGBRegressor 100) "XGBoost";
  train_and_evaluate g CatBoostRegressor "CatBoost".

(** ** Cell 4: attributions *)

Definition cell4 (g : cell2_vars) : NB unit :=
  m ← fit (RandomForestRegressor 100) (X_train_scaled g) (y_train g);
  shap_values ← with_rng (shap_explain lib (predict lib m) (X_test_scaled g) (X_test_scaled g));
  emit (BarChart shap_values).

(** ** Cell 5: one model per region *)

Definition cell5 (df : list row) (g : cell2_vars) : NB unit :=
  for_each (unique (region <$> df)) (λ reg,
    let sub_df := filter (λ r, region r = reg) df in
    X_r ← from_option (select (columns (X g)) sub_df);
    y_r ← from_option (series "rural_income" sub_df);
    '(X_train_r, X_test_r, y_train_r, y_test_r) ← train_test_split (values X_r) y_r 0.2 None;
    model_r ← fit (RandomForestRegressor 100) X_train_r y_train_r;
    emit (RegionReport reg (score model_r X_test_r y_test_r))).

(** ** Cell 6: policy simulation *)

(** The names cell 6 binds. *)
Record cell6_vars := Cell6 {
  X_sim : loc;
  X_sim_scaled : matrix;
  y_before : vec;
  y_after : vec
}.

Definition cell6 (g : cell2_vars) : NB cell6_vars :=
  X_sim ← frame_copy (X_test g);
  _ ← frame_iadd X_sim "policy_index" 0.2;
  X_sim_now ← deref_frame X_sim;
  X_sim_scaled ← transform (scaler g) X_sim_now;
  model_final ← fit (RandomForestRegressor 100) (X_train_scaled g) (y_train g);
  let y_before := predict lib model_final (X_test_scaled g) in
  let y_after := predict lib model_final X_sim_scaled in
  _ ← emit (PolicyReport (mean (zip_with Qminus y_after y_before)));
  mret (Cell6 X_sim X_sim_scaled y_before y_after).

(** ** The notebook, top to bottom *)

Definition notebook : NB (list row * cell2_vars * cell6_vars) :=
  df ← np_run generate;
  g ← cell2 df;
  _ ← cell3 g;
  _ ← cell4 g;
  _ ← cell5 df g;
  h ← cell6 g;
  mret (df, g, h).

End notebook.


(** A kernel that has run nothing yet: no objects, no output; the random
    state and the clock are whatever the process started with. *)
Definition fresh_kernel {lib : library} (s : rng lib) (c : clock lib) : world lib :=
  World s c ∅ [].

(** ** What the proofs assume about numpy *)

(** [choice(a, size=n, p=...)] returns [n] labels. *)
Definition choice_sized (np : numpy) : Prop :=
  ∀ a size p s, length (np_choice np a size p s).1 = size.

(** [uniform(low, high)] lies in the half-open interval [[low, high)]. *)
Definition uniform_in_range (np : numpy) : Prop :=
  ∀ low high s, (low < high)%Q →
    (low <= (np_uniform np low high s).1)%Q ∧ ((np_uniform np low high s).1 < high)%Q.

(** [permutation(n)] is a permutation of [range(n)], from the global state
    and from a seeded generator alike. *)
Definition permutation_valid (np : numpy) : Prop :=
  ∀ n s, (np_permutation np n s).1 ≡ₚ seq 0 n.
Definition seeded_permutation_valid (lib : library) : Prop :=
  ∀ seed n, seeded_permutation lib seed n ≡ₚ seq 0 n.

(** ** A reference instance of the libraries

    A small executable stand-in (a linear congruential generator, a
    constant predictor, textbook metrics), used to run the model on concrete
    inputs and to show that the assumptions above can be met. *)
Module Ref.

Definition next (s : Z) : Z := ((s * 1103515245 + 12345) mod 2147483648)%Z.

Definition unit01 (s : Z) : Q := Qred (Qmake ((s / 65536) mod 1000) 1000).
Definition gauss (s : Z) : Q := Qred (Qmake ((s / 65536) mod 801 - 400) 100).

Definition uniform (low high : Q) (s : Z) : Q * Z :=
  (Qred (low + (high - low) * unit01 s), next s).

Definition normal (loc scale : Q) (s : Z) : Q * Z :=
  (Qred (loc + scale * gauss s), next s).

Fixpoint pick (a : list Region) (p : list Q) (u : Q) : Region :=
  match a, p with
  | [], _ => West
  | [x], _ => x
  | x :: _, [] => x
  | x :: a', q :: p' => if Qlt_le_dec u q then x else pick a' p' (u - q)
  end.

Fixpoint choice (a : list Region) (size : nat) (p : list Q) (s : Z) : list Region * Z :=
  match size with
  | O => ([], s)
  | S n => let '(l, s') := choice a n p (next s) in (pick a p (unit01 s) :: l, s')
  end.

Definition permutation (n : nat) (s : Z) : list nat * Z :=
  (rotate (Z.to_nat (s / 65536)) (seq 0 n), next s).

Definition sqrt (q : Q) : Q :=
  Qred (Qmake (Z.sqrt (Qnum q * Zpos (Qden q) * 1000000)) (Qden q * 1000)).

Definition mse (y_true y_pred : vec) : Q :=
  Qred (mean (zip_with (λ a b, ((a - b) * (a - b))%Q) y_true y_pred)).

Definition r2 (y_true y_pred : vec) : Q :=
  Qred (1 - sum (zip_with (λ a b, ((a - b) * (a - b))%Q) y_true y_pred)
            / sum ((λ a, ((a - mean y_true) * (a - mean y_true))%Q) <$> y_true)).

Definition numpy : numpy :=
  Numpy Z (λ n, (n mod 2147483648)%Z) choice normal uniform permutation.

Definition lib : library := {|
  np := numpy;
  seeded_permutation := λ seed n, rotate (Z.to_nat seed + 7) (seq 0 n);
  np_sqrt := sqrt;
  model := Q;
  fit_ridge := λ _ y, Qred (mean y);
  fit_random := λ _ _ y s, (Qred (mean y), next s);
  predict := λ m X, (λ _ : list Q, m) <$> (X : list (list Q));
  mean_squared_error := mse;
  r2_score := r2;
  shap_explain := λ _ _ X s, ((λ r : list Q, (λ _ : Q, 0%Q) <$> r) <$> (X : list (list Q)), next s);
  clock := Z;
  time_time := λ c, (inject_Z c, (c + 1)%Z)
|}.

End Ref.

(** ** Vocabulary of the statements *)

Local Open Scope Q_scope.

(** The means of the region-conditioned normal draws. *)
Definition gdp_mean (reg : Region) : Q :=
  match reg with East => 80000 | Central => 50000 | West => 30000 end.
Definition net_mean (reg : Region) : Q :=
  match reg with East => 0.9 | Central | West => 0.75 end.
Definition urban_mean (reg : Region) : Q :=
  match reg with East => 0.7 | Central | West => 0.6 end.

(** [generated_by ch r]: [ch] is the list of the ten answered calls made for
    row [r], in the order they are made, and [r] holds the values computed
    from their answers. *)
Definition generated_by (ch : list event) (r : row) : Prop :=
  ∃ g n e m u p z x u1 u2 : Q,
    ch = [NormalEv (gdp_mean (region r)) 5000 g;
          NormalEv (net_mean (region r)) 0.1 n;
          NormalEv 15000 2000 e;
          NormalEv 10000 1500 m;
          NormalEv (urban_mean (region r)) 0.1 u;
          UniformEv 0 1 p;
          NormalEv 0 5 z;
          NormalEv 0.08 0.03 x;
          UniformEv 0.3 0.5 u1;
          UniformEv 0.6 0.9 u2] ∧
    gdp_pc r = g ∧
    net_access r = clip n 0.5 1.0 ∧
    edu_exp r = e ∧
    med_exp r = m ∧
    urban_ratio r = clip u 0.3 0.95 ∧
    policy_index r = p ∧
    infra_score r = net_access r * 50 + urban_ratio r * 30 + z ∧
    unemp_rate r = clip x 0.03 0.15 ∧
    rural_income r = g * u1 + p * 5000 - unemp_rate r * 2000 ∧
    urban_income r = g * u2.

Local Close Scope Q_scope.

(** The (city, region, year) triples the two loops visit, in order. *)
Definition block (yrs : list Z) (cr : string * Region) : list (string * Region * Z) :=
  (λ yr, (cr.1, cr.2, yr)) <$> yrs.
Definition keys (regions : list Region) : list (string * Region * Z) :=
  zip cities regions ≫= block (range 2018 2023).

Definition key_of (r : row) : string * Region * Z := (city r, region r, year r).

(** A generated row paired with the calls made for it. *)
Definition run_ok (k : string * Region * Z) (run : row * list event) : Prop :=
  key_of run.1 = k ∧ generated_by run.2 run.1.

(** The table cell 1 builds, and the labels it draws for the cities. *)
Definition table (np : numpy) (s : rng np) : list row := result np generate s.
Definition drawn_regions (np : numpy) : list Region :=
  (np_choice np [East; Central; West] 100 [0.4; 0.3; 0.3]%Q (np_seed np 42)).1.

(** The calls to [choice] among a list of answered calls. *)
Definition is_choice (e : event) : bool :=
  match e with ChoiceEv _ _ _ _ => true | _ => false end.
Definition choice_calls (tr : list event) : list event :=
  filter (λ e, is_choice e) tr.

(** An answered call is honest when its value is what numpy returns for the
    request at some random state. *)
Definition honest (np : numpy) (ev : event) : Prop :=
  match ev with
  | SeedEv _ => True
  | ChoiceEv a size p labels => ∃ s, labels = (np_choice np a size p s).1
  | NormalEv loc scale x => ∃ s, x = (np_normal np loc scale s).1
  | UniformEv low high x => ∃ s, x = (np_uniform np low high s).1
  | PermuteEv n permutation => ∃ s, permutation = (np_permutation np n s).1
  end.

(** The reading of "every covariate is a normal draw": each of the eight
    covariate values of the row is the answer of a call to [normal] among
    the calls made for that row. *)
Definition all_normal_draws (ch : list event) (r : row) : Prop :=
  Forall (λ v, ∃ loc scale, NormalEv loc scale v ∈ ch)
    [gdp_pc r; net_access r; edu_exp r; med_exp r; urban_ratio r;
     policy_index r; infra_score r; unemp_rate r].

(** The eight covariates of a row, in the order of [X_columns]. *)
Definition features (r : row) : list Q :=
  [gdp_pc r; net_access r; edu_exp r; med_exp r; urban_ratio r;
   policy_index r; infra_score r; unemp_rate r].

(** The value a frame holds in row [i] under the column named [col]. *)
Definition cell_of (f : frame) (i : nat) (col : string) : option Q :=
  j ← column_index col (columns f);
  r ← values f !! i;
  r !! j.

(** Where the permutation of a split comes from. *)
Definition split_permutation (lib : library) (random_state : option Z) (n : nat)
    (w : world lib) : list nat * world lib :=
  match random_state with
  | Some seed => (seeded_permutation lib seed n, w)
  | None =>
      let '(perm, s) := np_permutation lib n (w_rng w) in
      (perm, World s (w_clock w) (w_heap w) (w_stdout w))
  end.

(** The rows at the given positions, and the two parts of a split made with
    the permutation [perm]: the first [n_test] positions are the test rows,
    the rest the training rows. *)
Definition rows_at {R : Type} (rows : list R) (ind : list nat) : list R :=
  omap (λ i, rows !! i) ind.
Definition test_part {R : Type} (test_size : Q) (perm : list nat) (rows : list R) : list R :=
  rows_at rows (take (n_test_of test_size (length rows)) perm).
Definition train_part {R : Type} (test_size : Q) (perm : list nat) (rows : list R) : list R :=
  rows_at rows (drop (n_test_of test_size (length rows)) perm).

(** The numbers the first line of cell 3 reports. *)
Definition ridge_prediction (lib : library) (g : cell2_vars) : vec :=
  predict lib (fit_ridge lib (X_train_scaled g) (y_train g)) (X_test_scaled g).
Definition ridge_rmse (lib : library) (g : cell2_vars) : Q :=
  np_sqrt lib (mean_squared_error lib (y_test g) (ridge_prediction lib g)).
Definition ridge_r2 (lib : library) (g : cell2_vars) : Q :=
  r2_score lib (y_test g) (ridge_prediction lib g).

(** The regional step in the words of the specification: for one region,
    keep the rows of that region, split them 80/20 with a permutation drawn
    from the global random state, fit a new forest on the training part and
    report its coefficient of determination on the held-out part. *)
Definition regional_fit (lib : library) (df : list row) (reg : Region) (s : rng lib)
    : line * rng lib :=
  let sub := filter (λ r, region r = reg) df in
  let '(perm, s1) := np_permutation lib (length sub) s in
  let train := train_part 0.2 perm sub in
  let held_out := test_part 0.2 perm sub in
  let '(m, s2) := fit_random lib (RandomForestRegressor 100)
                    (features <$> train) (rural_income <$> train) s1 in
  (RegionReport reg (r2_score lib (rural_income <$> held_out)
                       (predict lib m (features <$> held_out))), s2).

Fixpoint regional_reports (lib : library) (df : list row) (regs : list Region)
    (s : rng lib) : list line * rng lib :=
  match regs with
  | [] => ([], s)
  | reg :: regs' =>
      let '(l, s1) := regional_fit lib df reg s in
      let '(ls, s2) := regional_reports lib df regs' s1 in
      (l :: ls, s2)
  end.

(** The notebook up to and including the attribution cell: everything that
    runs before the regional loop starts. *)
Definition cells_1_to_4 (lib : library) : NB lib (list row * cell2_vars) :=
  df ← np_run lib generate;
  g ← cell2 lib df;
  _ ← cell3 lib g;
  _ ← cell4 lib g;
  mret (df, g).

(** The policy step's table: every row of the test table with 0.2 added in
    the sixth column, [policy_index]. *)
Definition perturbed (Xte : frame) : frame :=
  Frame (columns Xte) ((λ r, alter (λ x, (x + 0.2)%Q) 5 r) <$> values Xte).

(** The rows cell 2 puts in the training and in the test partition: the
    split of the table with the permutation of the generator seeded with 0. *)
Definition train_rows (lib : library) (df : list row) : list row :=
  train_part 0.2 (seeded_permutation lib 0 (length df)) df.
Definition test_rows (lib : library) (df : list row) : list row :=
  test_part 0.2 (seeded_permutation lib 0 (length df)) df.

(** What cell 2 leaves behind, for a table whose test rows are [test]: the
    scaler object holds the parameters [p] fitted on the training frame (its
    per-column means and variances), [X_test] names the frame of the test
    rows, and both scaled arrays are computed with [p]. *)
Definition fitted_on_train (lib : library) (g : cell2_vars) (h : gmap loc obj)
    (p : scaler_params) (test : list row) : Prop :=
  h !! scaler g = Some (StandardScaler (Some p)) ∧
  h !! X_test g = Some (DataFrame (Frame X_columns (features <$> test))) ∧
  standard_fit lib (values (X_train g)) = Some p ∧
  mean_ p = (λ j, mean (column j (values (X_train g)))) <$> seq 0 8 ∧
  var_ p = (λ j, variance (column j (values (X_train g)))) <$> seq 0 8 ∧
  standard_transform p (values (X_train g)) = Some (X_train_scaled g) ∧
  standard_transform p (features <$> test) = Some (X_test_scaled g).

(** Two small tables that differ in one row only, the row the split of the
    reference instance holds out. *)
Definition sample1 : list row := take 5 (table Ref.numpy 0%Z).
Definition sample2 : list row :=
  take 2 (table Ref.numpy 0%Z) ++ take 1 (drop 5 (table Ref.numpy 0%Z))
    ++ take 2 (drop 3 (table Ref.numpy 0%Z)).

(** * Proofs *)

(** ** Running programs over the random state *)

Lemma exec_bind (np : numpy) {A B : Type} (m : Rand A) (f : A → Rand B) s a s1 t1 b s2 t2 :
  exec np m s = (a, s1, t1) →
  exec np (f a) s1 = (b, s2, t2) →
  exec np (m ≫= f) s = (b, s2, t1 ++ t2).
Proof.
  revert s t1. induction m as [a'|X e k IH]; intros s t1 Hm Hf; simpl in *.
  - by simplify_eq.
  - destruct (handle np e s) as [x s'].
    destruct (exec np (k x) s') as [[a'' s''] tr] eqn:Hk. simplify_eq.
    change (Rand_bind A B f (k x)) with (k x ≫= f). by rewrite (IH x s' tr Hk Hf).
Qed.

Lemma exec_ret (np : numpy) {A : Type} (a : A) s : exec np (mret a) s = (a, s, []).
Proof. done. Qed.

Lemma exec_draw (np : numpy) {X : Type} (e : randE X) s :
  exec np (draw e) s = ((handle np e s).1, (handle np e s).2, [answered e (handle np e s).1]).
Proof. simpl. by destruct (handle np e s). Qed.

(** ** One row *)

Lemma gen_row_exec (np : numpy) c reg yr s :
  ∃ r s' ch, exec np (gen_row c reg yr) s = (r, s', ch) ∧ run_ok (c, reg, yr) (r, ch).
Proof.
  unfold gen_row. simpl.
  destruct (np_normal np _ _ s) as [g s1].
  destruct (np_normal np _ _ s1) as [n s2].
  destruct (np_normal np _ _ s2) as [e s3].
  destruct (np_normal np _ _ s3) as [m s4].
  destruct (np_normal np _ _ s4) as [u s5].
  destruct (np_uniform np _ _ s5) as [p s6].
  destruct (np_normal np _ _ s6) as [z s7].
  destruct (np_normal np _ _ s7) as [x s8].
  destruct (np_uniform np _ _ s8) as [u1 s9].
  destruct (np_uniform np _ _ s9) as [u2 s10].
  eexists _, _, _. split; [done|]. split; [done|].
  exists g, n, e, m, u, p, z, x, u1, u2. simpl.
  by destruct reg.
Qed.

(** ** The two loops *)

Lemma for_years_exec (np : numpy) c reg (yrs : list Z) acc s :
  ∃ runs s',
    exec np (for_ yrs (λ year data, r ← gen_row c reg year; mret (data ++ [r])) acc) s
      = (acc ++ runs.*1, s', concat runs.*2) ∧
    Forall2 run_ok (block yrs (c, reg)) runs.
Proof.
  revert acc s. induction yrs as [|yr yrs IH]; intros acc s.
  - exists [], s. rewrite app_nil_r. split; [done|constructor].
  - destruct (gen_row_exec np c reg yr s) as (r & s1 & ch & Hr & Hok).
    destruct (IH (acc ++ [r]) s1) as (runs & s' & Hruns & Hall).
    exists ((r, ch) :: runs), s'. split; [|by constructor].
    cbn [for_]. rewrite <-(assoc_L (++)) in Hruns. simpl in Hruns.
    eapply exec_bind; [|exact Hruns].
    rewrite <-(app_nil_r ch). eapply exec_bind; [exact Hr|done].
Qed.

Lemma for_cities_exec (np : numpy) (l : list (string * Region)) acc s :
  ∃ runs s',
    exec np (for_ l (λ '(city, region) data,
               for_ (range 2018 2023) (λ year data,
                 r ← gen_row city region year; mret (data ++ [r])) data) acc) s
      = (acc ++ runs.*1, s', concat runs.*2) ∧
    Forall2 run_ok (l ≫= block (range 2018 2023)) runs.
Proof.
  revert acc s. induction l as [|[c reg] l IH]; intros acc s.
  - exists [], s. rewrite app_nil_r. split; [done|constructor].
  - destruct (for_years_exec np c reg (range 2018 2023) acc s) as (runs1 & s1 & H1 & Hok1).
    destruct (IH (acc ++ runs1.*1) s1) as (runs2 & s' & H2 & Hok2).
    exists (runs1 ++ runs2), s'. split.
    + cbn [for_]. rewrite !fmap_app, concat_app, (assoc_L (++)).
      eapply exec_bind; [exact H1|exact H2].
    + rewrite bind_cons. by apply Forall2_app.
Qed.

Lemma generate_exec (np : numpy) s :
  ∃ runs s',
    exec np generate s
      = (runs.*1, s',
         SeedEv 42 :: ChoiceEv [East; Central; West] 100 [0.4; 0.3; 0.3]%Q (drawn_regions np)
           :: concat runs.*2) ∧
    Forall2 run_ok (keys (drawn_regions np)) runs.
Proof.
  unfold generate, drawn_regions, keys.
  destruct (np_choice np _ _ _ (np_seed np 42)) as [regions s0] eqn:Hch. cbn [fst].
  destruct (for_cities_exec np (zip cities regions) [] s0) as (runs & s' & Hruns & Hok).
  exists runs, s'. split; [|done].
  rewrite <-(app_nil_r (concat runs.*2)).
  change (SeedEv 42 :: ?e :: ?l ++ []) with ([SeedEv 42] ++ [e] ++ l ++ []).
  eapply exec_bind; [by rewrite exec_draw|].
  eapply exec_bind; [rewrite exec_draw; simpl; by rewrite Hch|].
  simpl. eapply exec_bind; [exact Hruns|done].
Qed.

(** ** The table as a whole *)

Lemma table_runs (np : numpy) s :
  ∃ runs,
    table np s = runs.*1 ∧
    trace np generate s
      = SeedEv 42 :: ChoiceEv [East; Central; West] 100 [0.4; 0.3; 0.3]%Q (drawn_regions np)
          :: concat runs.*2 ∧
    Forall2 run_ok (keys (drawn_regions np)) runs.
Proof.
  destruct (generate_exec np s) as (runs & s' & Hex & Hok).
  exists runs. unfold table, result, trace. by rewrite Hex.
Qed.

Lemma table_keys (np : numpy) s : key_of <$> table np s = keys (drawn_regions np).
Proof.
  destruct (table_runs np s) as (runs & -> & _ & Hok).
  revert Hok. generalize (keys (drawn_regions np)).
  induction runs as [|run runs IH]; intros ks Hok; inversion Hok as [|k ? ks' ? [Hk _]]; subst.
  - done.
  - simpl. f_equal. by apply IH.
Qed.

Lemma table_generated (np : numpy) s :
  Forall (λ r, ∃ ch, generated_by ch r) (table np s).
Proof.
  destruct (table_runs np s) as (runs & -> & _ & Hok).
  apply Forall_fmap. induction Hok as [|k run ks runs [_ Hgen] _ IH]; constructor; [|done].
  by exists run.2.
Qed.

(** ** Cities, years and labels *)

Lemma cities_NoDup : NoDup cities.
Proof. apply (bool_decide_unpack _). by vm_compute. Qed.

Lemma cities_length : length cities = 100.
Proof. done. Qed.

Lemma block_length yrs cr : length (block yrs cr) = length yrs.
Proof. unfold block. by rewrite length_fmap. Qed.

Lemma blocks_length yrs (l : list (string * Region)) :
  length (l ≫= block yrs) = length l * length yrs.
Proof.
  induction l as [|cr l IH]; [done|].
  rewrite bind_cons, length_app, block_length, IH. simpl. lia.
Qed.

Lemma keys_length regions : length regions = 100 → length (keys regions) = 500.
Proof.
  intros Hlen. unfold keys. rewrite blocks_length, length_zip_with, Hlen, cities_length. done.
Qed.

Lemma filter_city_key_of (df : list row) c :
  key_of <$> filter (λ r, city r = c) df
    = filter (λ k : string * Region * Z, k.1.1 = c) (key_of <$> df).
Proof.
  induction df as [|r df IH]; [done|].
  rewrite fmap_cons, !filter_cons. simpl.
  destruct (decide (city r = c)); [rewrite fmap_cons|]; by rewrite IH.
Qed.

Lemma filter_block_eq yrs c reg :
  filter (λ k : string * Region * Z, k.1.1 = c) (block yrs (c, reg)) = block yrs (c, reg).
Proof.
  induction yrs as [|yr yrs IH]; [done|].
  change (block (yr :: yrs) (c, reg)) with ((c, reg, yr) :: block yrs (c, reg)).
  rewrite filter_cons_True by done. by rewrite IH.
Qed.

Lemma filter_block_ne yrs c c' reg :
  c' ≠ c → filter (λ k : string * Region * Z, k.1.1 = c) (block yrs (c', reg)) = [].
Proof.
  intros Hne. induction yrs as [|yr yrs IH]; [done|].
  change (block (yr :: yrs) (c', reg)) with ((c', reg, yr) :: block yrs (c', reg)).
  by rewrite filter_cons_False.
Qed.

Lemma filter_blocks_absent yrs c (l : list (string * Region)) :
  c ∉ l.*1 → filter (λ k : string * Region * Z, k.1.1 = c) (l ≫= block yrs) = [].
Proof.
  induction l as [|[c' reg] l IH]; intros Hnot; [done|].
  rewrite fmap_cons in Hnot. apply not_elem_of_cons in Hnot as [Hne Hnot].
  rewrite bind_cons, filter_app, filter_block_ne, IH by done. done.
Qed.

Lemma filter_blocks yrs (l : list (string * Region)) i c reg :
  NoDup l.*1 → l !! i = Some (c, reg) →
  filter (λ k : string * Region * Z, k.1.1 = c) (l ≫= block yrs) = block yrs (c, reg).
Proof.
  revert i. induction l as [|[c' reg'] l IH]; intros i Hnd Hi; [done|].
  rewrite fmap_cons in Hnd. apply NoDup_cons in Hnd as [Hnot Hnd].
  rewrite bind_cons, filter_app. destruct i as [|i]; simpl in Hi.
  - simplify_eq. rewrite filter_block_eq, filter_blocks_absent by done. by rewrite app_nil_r.
  - assert (c' ≠ c) as Hne.
    { intros ->. apply Hnot. apply list_elem_of_fmap. exists (c, reg). split; [done|].
      by eapply list_elem_of_lookup_2. }
    rewrite filter_block_ne by done. simpl. by eapply IH.
Qed.

Lemma generated_by_no_choice ch r : generated_by ch r → choice_calls ch = [].
Proof. intros (g & n & e & m & u & p & z & x & u1 & u2 & -> & _). done. Qed.

Lemma runs_no_choice ks (runs : list (row * list event)) :
  Forall2 run_ok ks runs → choice_calls (concat runs.*2) = [].
Proof.
  induction 1 as [|k run ks runs [_ Hgen] _ IH]; [done|].
  rewrite fmap_cons, concat_cons. apply generated_by_no_choice in Hgen.
  unfold choice_calls in *. by rewrite filter_app, IH, Hgen.
Qed.

(** C1.  The table has exactly 500 rows.  The labels of the cities come from
    one call to [choice], made once before the loops.  For each of the 100
    cities, the rows of that city are exactly five, their years are 2018 to
    2022 in order (so distinct), and all five carry the label drawn for that
    city.  Assumes that [choice] returns as many labels as asked. *)
Theorem C1_panel_shape (np : numpy) (Hsized : choice_sized np) (s : rng np) :
  length (table np s) = 500 ∧
  choice_calls (trace np generate s)
    = [ChoiceEv [East; Central; West] 100 [0.4; 0.3; 0.3]%Q (drawn_regions np)] ∧
  ∀ i c, cities !! i = Some c →
    ∃ label, drawn_regions np !! i = Some label ∧
      (λ r, (year r, region r)) <$> filter (λ r, city r = c) (table np s)
        = [(2018, label); (2019, label); (2020, label); (2021, label); (2022, label)]%Z.
Proof.
  assert (length (drawn_regions np) = 100) as Hlen by apply Hsized.
  split; [|split].
  - rewrite <-(length_fmap key_of), table_keys. by apply keys_length.
  - destruct (table_runs np s) as (runs & _ & -> & Hok).
    unfold choice_calls. rewrite !filter_cons. simpl.
    apply runs_no_choice in Hok. unfold choice_calls in Hok. by rewrite Hok.
  - intros i c Hi.
    destruct (lookup_lt_is_Some_2 (drawn_regions np) i) as [label Hlabel].
    { rewrite Hlen, <-cities_length. by eapply lookup_lt_Some. }
    exists label. split; [done|].
    transitivity ((λ k : string * Region * Z, (k.2, k.1.2))
                    <$> (key_of <$> filter (λ r, city r = c) (table np s))).
    { by rewrite <-list_fmap_compose. }
    rewrite filter_city_key_of, table_keys. unfold keys.
    rewrite (filter_blocks _ _ i c label).
    + done.
    + rewrite fst_zip; [apply cities_NoDup|]. rewrite Hlen, cities_length. done.
    + by apply lookup_zip_Some.
Qed.

(** ** Clipping *)

Lemma clip_bounds (x lo hi : Q) : (lo <= hi)%Q → (lo <= clip x lo hi)%Q ∧ (clip x lo hi <= hi)%Q.
Proof.
  intros Hle. unfold clip. split.
  - apply Q.min_glb; [apply Q.le_max_r|done].
  - apply Q.le_min_r.
Qed.

(** C4.  In every row of the table the three clipped covariates lie within
    their bounds, whatever numpy's routines return: nothing is assumed about
    them. *)
Theorem C4_clipped_bounds (np : numpy) (s : rng np) :
  Forall (λ r,
    ((0.5 <= net_access r)%Q ∧ (net_access r <= 1.0)%Q) ∧
    ((0.3 <= urban_ratio r)%Q ∧ (urban_ratio r <= 0.95)%Q) ∧
    ((0.03 <= unemp_rate r)%Q ∧ (unemp_rate r <= 0.15)%Q)) (table np s).
Proof.
  eapply Forall_impl; [apply table_generated|].
  intros r (ch & g & n & e & m & u & p & z & x & u1 & u2 & _ & _ & -> & _ & _ & -> & _ & _ & -> & _).
  repeat split; by apply clip_bounds.
Qed.

(** ** Honest traces *)

Lemma answered_honest (np : numpy) {X : Type} (e : randE X) s :
  honest np (answered e (handle np e s).1).
Proof. destruct e; simpl; eauto. Qed.

Lemma exec_honest (np : numpy) {A : Type} (m : Rand A) s : Forall (honest np) (exec np m s).2.
Proof.
  revert s. induction m as [a|X e k IH]; intros s; simpl; [constructor|].
  pose proof (answered_honest np e s) as He. specialize (IH (handle np e s).1 (handle np e s).2).
  destruct (handle np e s) as [x s1]. simpl in *.
  destruct (exec np (k x) s1) as [[a s2] tr]. by constructor.
Qed.

Lemma uniform_honest_range (np : numpy) low high x :
  uniform_in_range np → honest np (UniformEv low high x) → (low < high)%Q →
  (low <= x)%Q ∧ (x < high)%Q.
Proof. intros Hu [s ->] Hlt. by apply Hu. Qed.

Lemma table_runs_honest (np : numpy) s :
  ∃ runs,
    table np s = runs.*1 ∧
    trace np generate s
      = SeedEv 42 :: ChoiceEv [East; Central; West] 100 [0.4; 0.3; 0.3]%Q (drawn_regions np)
          :: concat runs.*2 ∧
    Forall (λ run, generated_by run.2 run.1 ∧ Forall (honest np) run.2) runs.
Proof.
  destruct (table_runs np s) as (runs & Ht & Htr & Hok).
  exists runs. split; [done|]. split; [done|].
  pose proof (exec_honest np generate s) as Hh. fold (trace np generate s) in Hh.
  rewrite Htr in Hh. apply Forall_cons in Hh as [_ Hh]. apply Forall_cons in Hh as [_ Hh].
  clear Ht Htr. induction Hok as [|k run ks runs [_ Hgen] _ IH]; [constructor|].
  rewrite fmap_cons, concat_cons in Hh. apply Forall_app in Hh as [Hh1 Hh2].
  constructor; [done|by apply IH].
Qed.

(** C5 (as amended).  The calls made for the rows are disjoint segments of
    the calls of the cell, ten per row.  For every row, the first eight are,
    in order: a normal draw for [gdp_pc] with mean 80000, 50000 or 30000 by
    region and deviation 5000; a normal draw (mean 0.9 for East, 0.75
    otherwise) clipped into [net_access]; normal draws for [edu_exp] and
    [med_exp] whose parameters do not mention the region; a normal draw
    (mean 0.7 for East, 0.6 otherwise) clipped into [urban_ratio]; a uniform
    draw on (0, 1) for [policy_index]; the normal(0, 5) noise of
    [infra_score], which is computed from [net_access] and [urban_ratio];
    and a normal(0.08, 0.03) draw clipped into [unemp_rate]. *)
Theorem C5_covariate_draws (np : numpy) (s : rng np) :
  ∃ runs : list (row * list event),
    table np s = runs.*1 ∧
    trace np generate s
      = SeedEv 42 :: ChoiceEv [East; Central; West] 100 [0.4; 0.3; 0.3]%Q (drawn_regions np)
          :: concat runs.*2 ∧
    Forall (λ run, ∃ g n e m u p z x : Q,
      take 8 run.2
        = [NormalEv (gdp_mean (region run.1)) 5000 g;
           NormalEv (net_mean (region run.1)) 0.1 n;
           NormalEv 15000 2000 e;
           NormalEv 10000 1500 m;
           NormalEv (urban_mean (region run.1)) 0.1 u;
           UniformEv 0 1 p;
           NormalEv 0 5 z;
           NormalEv 0.08 0.03 x] ∧
      length run.2 = 10 ∧
      gdp_pc run.1 = g ∧
      net_access run.1 = clip n 0.5 1.0 ∧
      edu_exp run.1 = e ∧
      med_exp run.1 = m ∧
      urban_ratio run.1 = clip u 0.3 0.95 ∧
      policy_index run.1 = p ∧
      infra_score run.1 = (net_access run.1 * 50 + urban_ratio run.1 * 30 + z)%Q ∧
      unemp_rate run.1 = clip x 0.03 0.15) runs.
Proof.
  destruct (table_runs_honest np s) as (runs & Ht & Htr & Hall).
  exists runs. split; [done|]. split; [done|].
  eapply Forall_impl; [exact Hall|].
  intros [r ch] [(g & n & e & m & u & p & z & x & u1 & u2 & -> & Hg & Hn & He & Hm & Hu & Hp & Hz & Hx & _) _].
  exists g, n, e, m, u, p, z, x. by repeat split.
Qed.

(** C5 (as stated) fails.  On the reference generator started at state 0,
    the [policy_index] of the first row is the answer of the uniform draw
    among the ten calls made for that row, and of none of its normal draws. *)
Lemma C5_policy_index_not_normal :
  ∃ r ch,
    table Ref.numpy 0%Z !! 0%nat = Some r ∧
    take 10 (drop 2 (trace Ref.numpy generate 0%Z)) = ch ∧
    UniformEv 0 1 (policy_index r) ∈ ch ∧
    ¬ all_normal_draws ch r.
Proof.
  eexists _, _. split; [by vm_compute|]. split; [by vm_compute|]. split.
  - cbn [policy_index]. set_solver.
  - unfold all_normal_draws. cbn [policy_index gdp_pc net_access edu_exp med_exp urban_ratio infra_score unemp_rate].
    intros H. do 5 apply Forall_cons in H as [_ H]. apply Forall_cons in H as [(loc & scale & H) _].
    repeat (apply elem_of_cons in H as [H|H]; [discriminate H|]).
    by apply elem_of_nil in H.
Qed.

(** C6.  For every row, the last two of its ten calls are a uniform draw on
    (0.3, 0.5) and a uniform draw on (0.6, 0.9), made for that row alone;
    [rural_income] is [gdp_pc] times the first plus 5000 times
    [policy_index] minus 2000 times [unemp_rate], and [urban_income] is
    [gdp_pc] times the second.  Given that [uniform] respects its interval,
    the two factors lie in [0.3, 0.5) and [0.6, 0.9). *)
Theorem C6_incomes (np : numpy) (Huniform : uniform_in_range np) (s : rng np) :
  ∃ runs : list (row * list event),
    table np s = runs.*1 ∧
    trace np generate s
      = SeedEv 42 :: ChoiceEv [East; Central; West] 100 [0.4; 0.3; 0.3]%Q (drawn_regions np)
          :: concat runs.*2 ∧
    Forall (λ run, ∃ u1 u2 : Q,
      length run.2 = 10 ∧
      drop 8 run.2 = [UniformEv 0.3 0.5 u1; UniformEv 0.6 0.9 u2] ∧
      ((0.3 <= u1)%Q ∧ (u1 < 0.5)%Q) ∧
      ((0.6 <= u2)%Q ∧ (u2 < 0.9)%Q) ∧
      (rural_income run.1
         == gdp_pc run.1 * u1 + 5000 * policy_index run.1 - 2000 * unemp_rate run.1)%Q ∧
      (urban_income run.1 == gdp_pc run.1 * u2)%Q) runs.
Proof.
  destruct (table_runs_honest np s) as (runs & Ht & Htr & Hall).
  exists runs. split; [done|]. split; [done|].
  eapply Forall_impl; [exact Hall|].
  intros [r ch] [(g & n & e & m & u & p & z & x & u1 & u2 & -> & Hg & _ & _ & _ & _ & Hp & _ & Hx & Hr & Hu) Hh].
  simpl in *. exists u1, u2.
  do 8 apply Forall_cons in Hh as [_ Hh].
  apply Forall_cons in Hh as [H1 Hh]. apply Forall_cons in Hh as [H2 _].
  split; [done|]. split; [done|].
  split; [by apply (uniform_honest_range np)|].
  split; [by apply (uniform_honest_range np)|].
  rewrite Hr, Hu, Hg, Hp. split; ring.
Qed.

(** C7.  For every row, [infra_score] is 50 times [net_access] plus 30 times
    [urban_ratio] plus the answer of the row's own normal(0, 5) draw, where
    [net_access] and [urban_ratio] are the clipped answers of the row's
    second and fifth calls. *)
Theorem C7_infra_score (np : numpy) (s : rng np) :
  ∃ runs : list (row * list event),
    table np s = runs.*1 ∧
    trace np generate s
      = SeedEv 42 :: ChoiceEv [East; Central; West] 100 [0.4; 0.3; 0.3]%Q (drawn_regions np)
          :: concat runs.*2 ∧
    Forall (λ run, ∃ n u e : Q,
      run.2 !! 1%nat = Some (NormalEv (net_mean (region run.1)) 0.1 n) ∧
      run.2 !! 4%nat = Some (NormalEv (urban_mean (region run.1)) 0.1 u) ∧
      run.2 !! 6%nat = Some (NormalEv 0 5 e) ∧
      net_access run.1 = clip n 0.5 1.0 ∧
      urban_ratio run.1 = clip u 0.3 0.95 ∧
      (infra_score run.1 == 50 * clip n 0.5 1.0 + 30 * clip u 0.3 0.95 + e)%Q) runs.
Proof.
  destruct (table_runs_honest np s) as (runs & Ht & Htr & Hall).
  exists runs. split; [done|]. split; [done|].
  eapply Forall_impl; [exact Hall|].
  intros [r ch] [(g & n & e & m & u & p & z & x & u1 & u2 & -> & _ & Hn & _ & _ & Hu & _ & Hz & _) _].
  simpl in *. exists n, u, z. repeat (split; [done|]).
  rewrite Hz, Hn, Hu. ring.
Qed.

(** ** The reference instance meets the assumptions *)

Lemma ref_choice_sized : choice_sized Ref.numpy.
Proof.
  intros a size p s. simpl. revert s. induction size as [|n IH]; intros s; [done|].
  simpl. specialize (IH (Ref.next s)). destruct (Ref.choice a n p (Ref.next s)). simpl in *. lia.
Qed.

Lemma ref_unit01_range s : (0 <= Ref.unit01 s)%Q ∧ (Ref.unit01 s < 1)%Q.
Proof.
  unfold Ref.unit01. rewrite Qred_correct.
  pose proof (Z.mod_pos_bound (s / 65536) 1000 eq_refl) as [H0 H1].
  unfold Qle, Qlt. simpl. lia.
Qed.

Lemma ref_uniform_in_range : uniform_in_range Ref.numpy.
Proof.
  intros low high s Hlt. simpl. rewrite Qred_correct.
  destruct (ref_unit01_range s) as [H0 H1]. split; nra.
Qed.

Lemma rotate_Permutation {A : Type} (n : nat) (l : list A) : rotate n l ≡ₚ l.
Proof.
  unfold rotate. rewrite Permutation_app_comm. by rewrite take_drop.
Qed.

Lemma ref_permutation_valid : permutation_valid Ref.numpy.
Proof. intros n s. apply rotate_Permutation. Qed.

Lemma ref_seeded_permutation_valid : seeded_permutation_valid Ref.lib.
Proof. intros seed n. apply rotate_Permutation. Qed.

(** C1 on the reference instance. *)
Lemma C1_panel_shape_witness :
  choice_sized Ref.numpy ∧ length (table Ref.numpy 0%Z) = 500.
Proof.
  split; [exact ref_choice_sized|].
  exact (proj1 (C1_panel_shape Ref.numpy ref_choice_sized 0%Z)).
Defined.

(** C6 on the reference instance. *)
Lemma C6_incomes_witness :
  uniform_in_range Ref.numpy ∧
  ∃ runs : list (row * list event), table Ref.numpy 0%Z = runs.*1.
Proof.
  split; [exact ref_uniform_in_range|].
  destruct (C6_incomes Ref.numpy ref_uniform_in_range 0%Z) as (runs & Ht & _).
  by exists runs.
Defined.

(** ** Notebook code: basic steps *)

Lemma nb_bind (lib : library) {A B : Type} (m : NB lib A) (f : A → NB lib B) w a w1 :
  m w = Some (a, w1) → (m ≫= f) w = f a w1.
Proof. intros H. unfold mbind, NB_bind. by rewrite H. Qed.

Lemma mapM_total {A B : Type} (f : A → option B) (g : A → B) (l : list A) :
  (∀ x, f x = Some (g x)) → mapM f l = Some (g <$> l).
Proof.
  intros Hf. induction l as [|x l IH]; [done|].
  simpl. by rewrite Hf, IH.
Qed.

Lemma select_X_columns (df : list row) :
  select X_columns df = Some (Frame X_columns (features <$> df)).
Proof. unfold select. by rewrite (mapM_total _ features). Qed.

Lemma series_rural_income (df : list row) :
  series "rural_income" df = Some (rural_income <$> df).
Proof. unfold series. by rewrite (mapM_total _ rural_income). Qed.

(** ** Indexing by a permutation *)

Lemma mapM_omap {A B : Type} (f : A → option B) (l : list A) (k : list B) :
  mapM f l = Some k → omap f l = k.
Proof.
  revert k. induction l as [|x l IH]; intros k; simpl; [by intros [= <-]|].
  destruct (f x) as [y|]; [|done]. simpl.
  destruct (mapM f l) as [k'|]; [|done]. simpl. intros [= <-].
  f_equal. by apply IH.
Qed.

Lemma omap_lookup_seq {A : Type} (pre l : list A) :
  omap (λ i, (pre ++ l) !! i) (seq (length pre) (length l)) = l.
Proof.
  revert pre. induction l as [|x l IH]; intros pre; [done|].
  simpl. rewrite list_lookup_middle by done. f_equal.
  specialize (IH (pre ++ [x])). rewrite length_app, <-(assoc_L (++)) in IH. simpl in IH.
  by rewrite Nat.add_1_r in IH.
Qed.

Lemma lookup_all_Permutation {A : Type} (l k : list A) (perm : list nat) :
  perm ≡ₚ seq 0 (length l) → mapM (λ i, l !! i) perm = Some k → k ≡ₚ l.
Proof.
  intros Hperm Hk. apply mapM_omap in Hk as <-.
  rewrite Hperm. pose proof (omap_lookup_seq [] l) as Hl. simpl in Hl. by rewrite Hl.
Qed.

Lemma lookup_all_is_Some {A : Type} (l : list A) (ind : list nat) :
  Forall (λ i, i < length l) ind → is_Some (mapM (λ i, l !! i) ind).
Proof.
  intros Hind. apply mapM_is_Some. eapply Forall_impl; [exact Hind|].
  intros i Hi. by apply lookup_lt_is_Some_2.
Qed.

Lemma lookup_all_fmap {A B : Type} (f : A → B) (l k : list A) (ind : list nat) :
  mapM (λ i, l !! i) ind = Some k →
  mapM (λ i, (f <$> l) !! i) ind = Some (f <$> k).
Proof.
  revert k. induction ind as [|i ind IH]; intros k; simpl; [by intros [= <-]|].
  rewrite list_lookup_fmap. destruct (l !! i) as [x|]; [|done]. simpl.
  destruct (mapM (λ i, l !! i) ind) as [k'|]; [|done]. simpl. intros [= <-].
  by rewrite (IH k').
Qed.

Lemma lookup_all_app {A : Type} (l : list A) (i1 i2 : list nat) k1 k2 :
  mapM (λ i, l !! i) i1 = Some k1 → mapM (λ i, l !! i) i2 = Some k2 →
  mapM (λ i, l !! i) (i1 ++ i2) = Some (k1 ++ k2).
Proof.
  intros H1 H2. apply mapM_Some. apply mapM_Some in H1, H2. by apply Forall2_app.
Qed.

(** ** The split *)

Lemma n_test_lt (n : nat) : 2 ≤ n → n_test_of 0.2 n < n.
Proof.
  intros Hn. unfold n_test_of.
  assert (Qceiling (0.2 * inject_Z (Z.of_nat n)) ≤ Z.of_nat n - 1)%Z as Hle.
  { rewrite <-(Qceiling_Z (Z.of_nat n - 1)). apply Qceiling_resp_le.
    unfold Qle, Qmult, inject_Z. simpl. lia. }
  lia.
Qed.

(** The two parts of a split made with a valid permutation: together they
    are the given rows, and their sizes are as the splitter computes them. *)
Lemma split_parts {R : Type} (rows : list R) (test_size : Q) (perm : list nat) :
  n_test_of test_size (length rows) < length rows →
  perm ≡ₚ seq 0 (length rows) →
  test_part test_size perm rows ++ train_part test_size perm rows ≡ₚ rows ∧
  length (test_part test_size perm rows) = n_test_of test_size (length rows) ∧
  length (train_part test_size perm rows)
    = length rows - n_test_of test_size (length rows) ∧
  mapM (λ i, rows !! i) (take (n_test_of test_size (length rows)) perm)
    = Some (test_part test_size perm rows) ∧
  mapM (λ i, rows !! i) (drop (n_test_of test_size (length rows)) perm)
    = Some (train_part test_size perm rows).
Proof.
  intros Hlt Hperm. unfold train_part, test_part, rows_at.
  set (n := length rows) in *. set (n_test := n_test_of test_size n) in *.
  assert (length perm = n) as Hlen by (by rewrite Hperm, length_seq).
  assert (Forall (λ i, i < length rows) perm) as Hin.
  { rewrite Hperm. apply Forall_forall. intros i Hi. apply elem_of_seq in Hi. fold n. lia. }
  destruct (lookup_all_is_Some rows (take n_test perm)) as [test Htest].
  { by apply Forall_take. }
  destruct (lookup_all_is_Some rows (drop n_test perm)) as [train Htr].
  { by apply Forall_drop. }
  rewrite (mapM_omap _ _ _ Htest), (mapM_omap _ _ _ Htr).
  split; [|split; [|split; [|done]]].
  - eapply lookup_all_Permutation; [exact Hperm|].
    rewrite <-(take_drop n_test perm) at 1. by apply lookup_all_app.
  - apply length_mapM in Htest. rewrite <-Htest, length_take. lia.
  - apply length_mapM in Htr. rewrite <-Htr, length_drop. lia.
Qed.

(** A split of rows that are given to the splitter column-wise ([f] and [g]
    of the rows) succeeds and returns the columns of the two parts. *)
Lemma train_test_split_rows (lib : library) {R A B : Type} (rows : list R)
    (f : R → A) (g : R → B) test_size random_state (w : world lib) :
  n_test_of test_size (length rows) < length rows →
  (split_permutation lib random_state (length rows) w).1 ≡ₚ seq 0 (length rows) →
  let perm := (split_permutation lib random_state (length rows) w).1 in
  let train := train_part test_size perm rows in
  let test := test_part test_size perm rows in
  train_test_split lib (f <$> rows) (g <$> rows) test_size random_state w
    = Some ((f <$> train, f <$> test, g <$> train, g <$> test),
            (split_permutation lib random_state (length rows) w).2).
Proof.
  intros Hlt Hperm.
  destruct (split_parts rows test_size _ Hlt Hperm) as (_ & _ & _ & Htest & Htr).
  set (n := length rows) in *. set (n_test := n_test_of test_size n) in *.
  destruct (split_permutation lib random_state n w) as [perm w'] eqn:Hsp.
  cbn [fst snd] in *.
  assert (length perm = n) as Hlen by (by rewrite Hperm, length_seq).
  assert (take (n - n_test) (drop n_test perm) = drop n_test perm) as Htrain.
  { apply take_ge. rewrite length_drop. lia. }
  unfold train_test_split. rewrite !length_fmap. fold n n_test.
  rewrite decide_True by done. rewrite decide_False by lia.
  assert ((match random_state with
           | Some seed => mret (seeded_permutation lib seed n)
           | None => np_run lib (draw (Permute n))
           end : NB lib _) w = Some (perm, w')) as Hdraw.
  { unfold split_permutation in Hsp. destruct random_state as [seed|].
    - by simplify_eq.
    - unfold np_run. simpl. destruct (np_permutation lib n (w_rng w)). by simplify_eq. }
  erewrite nb_bind by exact Hdraw. rewrite Htrain. unfold index.
  rewrite (lookup_all_fmap f _ _ _ Htr), (lookup_all_fmap f _ _ _ Htest).
  rewrite (lookup_all_fmap g _ _ _ Htr), (lookup_all_fmap g _ _ _ Htest).
  done.
Qed.

(** ** The scaler *)

Lemma rectangular_features (rows : list row) : rectangular 8 (features <$> rows).
Proof. apply Forall_fmap, Forall_true. done. Qed.

Lemma standard_fit_features (lib : library) (rows : list row) :
  rows ≠ [] → ∃ p, standard_fit lib (features <$> rows) = Some p ∧ length (mean_ p) = 8.
Proof.
  destruct rows as [|r rows]; [done|]. intros _. unfold standard_fit. rewrite fmap_cons.
  rewrite decide_True by apply (rectangular_features (r :: rows)).
  eexists. split; [done|]. done.
Qed.

Lemma standard_transform_features (p : scaler_params) (rows : list row) :
  length (mean_ p) = 8 → is_Some (standard_transform p (features <$> rows)).
Proof.
  intros Hp. unfold standard_transform. rewrite Hp.
  rewrite decide_True by apply rectangular_features. done.
Qed.

(** ** Objects on the heap *)

Lemma deref_frame_spec (lib : library) (l : loc) (f : frame) (w : world lib) :
  w_heap w !! l = Some (DataFrame f) → deref_frame lib l w = Some (f, w).
Proof.
  intros Hl. unfold deref_frame.
  erewrite nb_bind by (unfold deref; rewrite Hl; reflexivity). done.
Qed.

Lemma fit_transform_spec (lib : library) (sc : loc) (X : frame) o p Z s c h out :
  h !! sc = Some (StandardScaler o) →
  standard_fit lib (values X) = Some p →
  standard_transform p (values X) = Some Z →
  fit_transform lib sc X (World s c h out)
    = Some (Z, World s c (<[sc := StandardScaler (Some p)]> h) out).
Proof.
  intros Hsc Hfit Htr. unfold fit_transform.
  erewrite nb_bind by (unfold deref; simpl; rewrite Hsc; reflexivity).
  rewrite Hfit. simpl from_option. erewrite nb_bind; [|reflexivity].
  erewrite nb_bind; [|reflexivity]. by rewrite Htr.
Qed.

Lemma transform_spec (lib : library) (sc : loc) (X : frame) p Z (w : world lib) :
  w_heap w !! sc = Some (StandardScaler (Some p)) →
  standard_transform p (values X) = Some Z →
  transform lib sc X w = Some (Z, w).
Proof.
  intros Hsc Htr. unfold transform.
  erewrite nb_bind by (unfold deref; rewrite Hsc; reflexivity).
  cbn beta iota. by rewrite Htr.
Qed.

(** ** Cell 2 *)

Lemma cell2_spec (lib : library) (heap : gmap loc obj) (df : list row) :
  seeded_permutation_valid lib → 2 ≤ length df →
  let perm := seeded_permutation lib 0 (length df) in
  let train := train_part 0.2 perm df in
  let test := test_part 0.2 perm df in
  let l1 := fresh (dom heap) in
  let h1 := <[l1 := DataFrame (Frame X_columns (features <$> test))]> heap in
  let l2 := fresh (dom h1) in
  ∃ p Xtr_scaled Xte_scaled,
    standard_fit lib (features <$> train) = Some p ∧
    standard_transform p (features <$> train) = Some Xtr_scaled ∧
    standard_transform p (features <$> test) = Some Xte_scaled ∧
    ∀ s c out,
      cell2 lib df (World s c heap out)
        = Some (Cell2 (Frame X_columns (features <$> df)) (rural_income <$> df)
                      (Frame X_columns (features <$> train)) l1
                      (rural_income <$> train) (rural_income <$> test) l2
                      Xtr_scaled Xte_scaled,
                World s c (<[l2 := StandardScaler (Some p)]> h1) out).
Proof.
  intros Hperm Hlen perm train test l1 h1 l2.
  destruct (split_parts df 0.2 perm) as (Hpart & Hlte & Hltr & _).
  { by apply n_test_lt. } { apply Hperm. }
  fold train test in Hpart, Hlte, Hltr.
  assert (train ≠ []) as Hne.
  { intros Hnil. rewrite Hnil in Hltr. simpl in Hltr.
    pose proof (n_test_lt (length df) Hlen). lia. }
  destruct (standard_fit_features lib train Hne) as (p & Hfit & Hp).
  destruct (standard_transform_features p train Hp) as [Xtr_scaled Htr].
  destruct (standard_transform_features p test Hp) as [Xte_scaled Hte].
  exists p, Xtr_scaled, Xte_scaled. do 3 (split; [done|]).
  intros s c out. unfold cell2.
  rewrite select_X_columns, series_rural_income. simpl from_option.
  erewrite nb_bind; [|reflexivity]. erewrite nb_bind; [|reflexivity].
  cbn [values columns].
  erewrite nb_bind; cycle 1.
  { apply train_test_split_rows; [by apply n_test_lt|apply Hperm]. }
  cbn [split_permutation fst snd]. fold perm train test.
  assert (l2 ≠ l1) as Hl.
  { intros Heq. apply (is_fresh (dom h1)). fold l2. rewrite Heq. unfold h1.
    rewrite dom_insert_L. set_solver. }
  erewrite nb_bind; [|reflexivity]. cbn [w_rng w_clock w_heap w_stdout]. fold l1 h1.
  erewrite nb_bind; [|reflexivity]. cbn [w_rng w_clock w_heap w_stdout]. fold l2.
  erewrite nb_bind; cycle 1.
  { eapply fit_transform_spec; [apply lookup_insert_eq|exact Hfit|exact Htr]. }
  rewrite insert_insert_eq.
  erewrite nb_bind; cycle 1.
  { apply deref_frame_spec. simpl. rewrite lookup_insert_ne by done. apply lookup_insert_eq. }
  erewrite nb_bind; cycle 1.
  { eapply transform_spec; [apply lookup_insert_eq|exact Hte]. }
  done.
Qed.

(** ** Cells 3 and 4 *)

Lemma fit_spec (lib : library) (e : estimator) (X : matrix) (y : vec) s c h out :
  ∃ m s',
    fit lib e X y (World s c h out) = Some (m, World s' c h out) ∧
    (e = Ridge → m = fit_ridge lib X y ∧ s' = s) ∧
    (e ≠ Ridge → (m, s') = fit_random lib e X y s).
Proof.
  destruct e; simpl; unfold with_rng; simpl.
  1: by eexists _, _.
  all: destruct (fit_random lib _ X y s) as [m s'] eqn:Hfit; exists m, s'; by rewrite <-Hfit.
Qed.

Lemma train_and_evaluate_spec (lib : library) (g : cell2_vars) (e : estimator) name s c h out :
  ∃ s' c' l,
    train_and_evaluate lib g e name (World s c h out) = Some (tt, World s' c' h (out ++ [l])) ∧
    (e = Ridge → ∃ t, l = ModelReport name (ridge_rmse lib g) (ridge_r2 lib g) t).
Proof.
  unfold train_and_evaluate.
  destruct (time_time lib c) as [t0 c1] eqn:Ht0.
  destruct (fit_spec lib e (X_train_scaled g) (y_train g) s c1 h out) as (m & s' & Hfit & Hridge & _).
  destruct (time_time lib c1) as [t1 c2] eqn:Ht1.
  eexists s', c2, _. split.
  - erewrite nb_bind by (unfold now; simpl; rewrite Ht0; reflexivity).
    erewrite nb_bind by exact Hfit.
    erewrite nb_bind by (unfold now; simpl; rewrite Ht1; reflexivity).
    reflexivity.
  - intros He. destruct (Hridge He) as [-> _]. by eexists.
Qed.

Lemma cell3_spec (lib : library) (g : cell2_vars) s c h out :
  ∃ s' c' t rest,
    cell3 lib g (World s c h out)
      = Some (tt, World s' c' h
                    (out ++ ModelReport "Ridge回归" (ridge_rmse lib g) (ridge_r2 lib g) t :: rest)) ∧
    length rest = 3.
Proof.
  unfold cell3.
  destruct (train_and_evaluate_spec lib g Ridge "Ridge回归" s c h out)
    as (s1 & c1 & l1 & H1 & Hl1).
  destruct (Hl1 eq_refl) as [t ->].
  destruct (train_and_evaluate_spec lib g (RandomForestRegressor 100) "随机森林" s1 c1 h
              (out ++ [ModelReport "Ridge回归" (ridge_rmse lib g) (ridge_r2 lib g) t]))
    as (s2 & c2 & l2 & H2 & _).
  destruct (train_and_evaluate_spec lib g (XGBRegressor 100) "XGBoost" s2 c2 h
              ((out ++ [ModelReport "Ridge回归" (ridge_rmse lib g) (ridge_r2 lib g) t]) ++ [l2]))
    as (s3 & c3 & l3 & H3 & _).
  destruct (train_and_evaluate_spec lib g CatBoostRegressor "CatBoost" s3 c3 h
              (((out ++ [ModelReport "Ridge回归" (ridge_rmse lib g) (ridge_r2 lib g) t]) ++ [l2]) ++ [l3]))
    as (s4 & c4 & l4 & H4 & _).
  exists s4, c4, t, [l2; l3; l4]. split; [|done].
  erewrite nb_bind by exact H1. erewrite nb_bind by exact H2.
  erewrite nb_bind by exact H3. rewrite H4.
  by rewrite <-!(assoc_L (++)).
Qed.

Lemma cell4_spec (lib : library) (g : cell2_vars) s c h out :
  ∃ s' l, cell4 lib g (World s c h out) = Some (tt, World s' c h (out ++ [l])).
Proof.
  unfold cell4.
  destruct (fit_spec lib (RandomForestRegressor 100) (X_train_scaled g) (y_train g) s c h out)
    as (m & s1 & Hfit & _).
  destruct (shap_explain lib (predict lib m) (X_test_scaled g) (X_test_scaled g) s1)
    as [sv s2] eqn:Hshap.
  exists s2, (BarChart sv).
  erewrite nb_bind by exact Hfit.
  erewrite nb_bind by (unfold with_rng; simpl; rewrite Hshap; reflexivity).
  reflexivity.
Qed.

(** ** Cell 5 *)

Lemma unique_from_spec {A : Type} `{EqDecision A} (seen l : list A) :
  NoDup (unique_from seen l) ∧
  ∀ x, x ∈ unique_from seen l ↔ x ∈ l ∧ x ∉ seen.
Proof.
  revert seen. induction l as [|y l IH]; intros seen; simpl.
  - split; [constructor|]. intros x. rewrite elem_of_nil. set_solver.
  - destruct (decide (y ∈ seen)) as [Hin|Hnot].
    + destruct (IH seen) as [Hnd Hel]. split; [done|].
      intros x. rewrite Hel. set_solver.
    + destruct (IH (y :: seen)) as [Hnd Hel]. split.
      * constructor; [|done]. rewrite Hel. set_solver.
      * intros x. rewrite elem_of_cons, Hel.
        destruct (decide (x = y)) as [->|Hne]; set_solver.
Qed.

Lemma unique_spec {A : Type} `{EqDecision A} (l : list A) :
  NoDup (unique l) ∧ ∀ x, x ∈ unique l ↔ x ∈ l.
Proof.
  destruct (unique_from_spec [] l) as [Hnd Hel]. split; [done|].
  intros x. unfold unique. rewrite Hel. set_solver.
Qed.

Lemma regional_loop_spec (lib : library) (df : list row) (g : cell2_vars)
    (regs : list Region) s c h out :
  permutation_valid lib →
  columns (X g) = X_columns →
  Forall (λ reg, 2 ≤ length (filter (λ r, region r = reg) df)) regs →
  for_each lib regs (λ reg,
    let sub_df := filter (λ r, region r = reg) df in
    X_r ← from_option lib (select (columns (X g)) sub_df);
    y_r ← from_option lib (series "rural_income" sub_df);
    '(X_train_r, X_test_r, y_train_r, y_test_r) ←
      train_test_split lib (values X_r) y_r 0.2 None;
    model_r ← fit lib (RandomForestRegressor 100) X_train_r y_train_r;
    emit lib (RegionReport reg (score lib model_r X_test_r y_test_r)))
    (World s c h out)
  = Some (tt, World (regional_reports lib df regs s).2 c h
                    (out ++ (regional_reports lib df regs s).1)).
Proof.
  intros Hperm Hcols Hsizes. revert s out.
  induction Hsizes as [|reg regs Hsize _ IH]; intros s out.
  - simpl. by rewrite app_nil_r.
  - cbn [for_each regional_reports]. unfold regional_fit.
    set (sub := filter (λ r, region r = reg) df) in *.
    pose proof (train_test_split_rows lib sub features rural_income 0.2 None
                  (World s c h out)) as Hsplit.
    cbn [split_permutation w_rng w_clock w_heap w_stdout] in Hsplit.
    pose proof (Hperm (length sub) s) as Hp.
    destruct (np_permutation lib (length sub) s) as [perm s1].
    cbn [fst snd] in Hsplit, Hp.
    specialize (Hsplit (n_test_lt _ Hsize) Hp). cbn zeta in Hsplit.
    destruct (fit_random lib (RandomForestRegressor 100)
                (features <$> train_part 0.2 perm sub)
                (rural_income <$> train_part 0.2 perm sub) s1) as [m s2] eqn:Hfit.
    specialize (IH s2 (out ++ [RegionReport reg
      (r2_score lib (rural_income <$> test_part 0.2 perm sub)
         (predict lib m (features <$> test_part 0.2 perm sub)))])).
    destruct (regional_reports lib df regs s2) as [ls s3]. cbn [fst snd] in *.
    erewrite nb_bind; [rewrite IH; by rewrite <-(assoc_L (++))|].
    cbn zeta. rewrite Hcols, select_X_columns, series_rural_income. simpl from_option.
    erewrite nb_bind by reflexivity. erewrite nb_bind by reflexivity.
    cbn [values]. erewrite nb_bind by exact Hsplit. cbn beta iota.
    erewrite nb_bind by (simpl; unfold with_rng; simpl; rewrite Hfit; reflexivity).
    reflexivity.
Qed.

(** ** Cell 6 *)

Lemma perturbed_rectangular (n : nat) (Xte : frame) :
  rectangular n (values Xte) → rectangular n (values (perturbed Xte)).
Proof.
  unfold rectangular, perturbed. simpl. intros H. apply Forall_fmap.
  eapply Forall_impl; [exact H|]. intros r Hr. simpl. by rewrite length_alter.
Qed.

Lemma cell6_spec (lib : library) (g : cell2_vars) s c h out Xte p :
  h !! X_test g = Some (DataFrame Xte) →
  h !! scaler g = Some (StandardScaler (Some p)) →
  columns Xte = X_columns →
  rectangular (length (mean_ p)) (values Xte) →
  ∃ Z s' delta yb ya,
    standard_transform p (values (perturbed Xte)) = Some Z ∧
    cell6 lib g (World s c h out)
      = Some (Cell6 (fresh (dom h)) Z yb ya,
              World s' c (<[fresh (dom h) := DataFrame (perturbed Xte)]> h)
                    (out ++ [PolicyReport delta])).
Proof.
  intros Hte Hsc Hcols Hrect. set (l3 := fresh (dom h)).
  assert (l3 ∉ dom h) as Hfresh by apply is_fresh.
  assert (l3 ≠ scaler g) as Hne.
  { intros Heq. apply Hfresh. rewrite Heq. by apply elem_of_dom. }
  assert (is_Some (standard_transform p (values (perturbed Xte)))) as [Z HZ].
  { unfold standard_transform. rewrite decide_True by (by apply perturbed_rectangular). done. }
  destruct (fit_spec lib (RandomForestRegressor 100) (X_train_scaled g) (y_train g) s c
              (<[l3 := DataFrame (perturbed Xte)]> h) out) as (m & s' & Hfit & _).
  eexists Z, s', _, _, _. split; [done|].
  unfold cell6.
  erewrite nb_bind; cycle 1.
  { unfold frame_copy. erewrite nb_bind by (by apply deref_frame_spec). reflexivity. }
  cbn [w_rng w_clock w_heap w_stdout]. fold l3.
  erewrite nb_bind; cycle 1.
  { unfold frame_iadd.
    erewrite nb_bind by (apply deref_frame_spec; apply lookup_insert_eq).
    rewrite Hcols. erewrite nb_bind by reflexivity. reflexivity. }
  cbn [w_rng w_clock w_heap w_stdout]. rewrite insert_insert_eq.
  rewrite <-Hcols. change (Frame (columns Xte) _) with (perturbed Xte).
  erewrite nb_bind by (apply deref_frame_spec; apply lookup_insert_eq).
  erewrite nb_bind; cycle 1.
  { eapply transform_spec; [|exact HZ]. simpl. by rewrite lookup_insert_ne. }
  erewrite nb_bind by exact Hfit.
  erewrite nb_bind by reflexivity. reflexivity.
Qed.

(** ** Every region of the table has at least five rows *)

Lemma filter_region_key_of (df : list row) reg :
  key_of <$> filter (λ r, region r = reg) df
    = filter (λ k : string * Region * Z, k.1.2 = reg) (key_of <$> df).
Proof.
  induction df as [|r df IH]; [done|].
  rewrite fmap_cons, !filter_cons. simpl.
  destruct (decide (region r = reg)); [rewrite fmap_cons|]; by rewrite IH.
Qed.

Lemma filter_block_region yrs c reg :
  filter (λ k : string * Region * Z, k.1.2 = reg) (block yrs (c, reg)) = block yrs (c, reg).
Proof.
  induction yrs as [|yr yrs IH]; [done|].
  change (block (yr :: yrs) (c, reg)) with ((c, reg, yr) :: block yrs (c, reg)).
  rewrite filter_cons_True by done. by rewrite IH.
Qed.

Lemma blocks_region_size yrs (l : list (string * Region)) c reg :
  (c, reg) ∈ l →
  length yrs ≤ length (filter (λ k : string * Region * Z, k.1.2 = reg) (l ≫= block yrs)).
Proof.
  induction l as [|cr l IH]; intros Hin; [by apply elem_of_nil in Hin|].
  rewrite bind_cons, filter_app, length_app.
  apply elem_of_cons in Hin as [<-|Hin].
  - rewrite filter_block_region, block_length. lia.
  - specialize (IH Hin). lia.
Qed.

Lemma region_groups (np : numpy) s :
  Forall (λ reg, 5 ≤ length (filter (λ r, region r = reg) (table np s)))
    (unique (region <$> table np s)).
Proof.
  apply Forall_forall. intros reg Hreg.
  apply (proj1 (proj2 (unique_spec (region <$> table np s)) reg)) in Hreg.
  apply list_elem_of_fmap in Hreg as (r & -> & Hr).
  rewrite <-(length_fmap key_of), filter_region_key_of, table_keys.
  assert (key_of r ∈ keys (drawn_regions np)) as Hk.
  { rewrite <-(table_keys np s). by apply list_elem_of_fmap_2. }
  unfold keys in *. apply list_elem_of_bind in Hk as ([c reg] & Hblock & Hcr).
  unfold block in Hblock. apply list_elem_of_fmap in Hblock as (yr & Hkey & _).
  unfold key_of in Hkey. simpl in Hkey. injection Hkey as _ -> _.
  by apply (blocks_region_size (range 2018 2023) _ c reg).
Qed.

(** ** The notebook from a fresh kernel *)

Lemma seed_resets (np : numpy) (s s' : rng np) : exec np generate s = exec np generate s'.
Proof. reflexivity. Qed.

Lemma np_run_generate (lib : library) s c h out :
  np_run lib generate (World s c h out)
    = Some (table lib s, World (final lib generate s) c h out).
Proof.
  unfold np_run, table, result, final. cbn [w_rng w_clock w_heap w_stdout].
  by destruct (exec lib generate s) as [[df s1] tr].
Qed.

Lemma table_length (np : numpy) s : choice_sized np → length (table np s) = 500.
Proof.
  intros Hsized. rewrite <-(length_fmap key_of), table_keys. apply keys_length, Hsized.
Qed.

Lemma notebook_run (lib : library) (s : rng lib) (c : clock lib) :
  choice_sized lib → seeded_permutation_valid lib → permutation_valid lib →
  let df := table lib s in
  let Xte := Frame X_columns (features <$> test_rows lib df) in
  ∃ g p h w' t rest chart s5 delta,
    let h2 := <[scaler g := StandardScaler (Some p)]> (<[X_test g := DataFrame Xte]> ∅) in
    (∀ s' c' out, cell2 lib df (World s' c' ∅ out) = Some (g, World s' c' h2 out)) ∧
    (X g = Frame X_columns (features <$> df) ∧
     X_train g = Frame X_columns (features <$> train_rows lib df) ∧
     y_train g = rural_income <$> train_rows lib df ∧
     y_test g = rural_income <$> test_rows lib df) ∧
    X_test g ≠ scaler g ∧
    (standard_fit lib (features <$> train_rows lib df) = Some p ∧
     standard_transform p (features <$> train_rows lib df) = Some (X_train_scaled g) ∧
     standard_transform p (features <$> test_rows lib df) = Some (X_test_scaled g)) ∧
    notebook lib (fresh_kernel s c) = Some ((df, g, h), w') ∧
    (w_heap w' = <[X_sim h := DataFrame (perturbed Xte)]> h2 ∧ X_sim h ∉ dom h2) ∧
    standard_transform p (values (perturbed Xte)) = Some (X_sim_scaled h) ∧
    w_stdout w'
      = ModelReport "Ridge回归" (ridge_rmse lib g) (ridge_r2 lib g) t
          :: rest ++ [chart]
          ++ (regional_reports lib df (unique (region <$> df)) s5).1
          ++ [PolicyReport delta] ∧
    length rest = 3 ∧
    ∃ c4,
      cells_1_to_4 lib (fresh_kernel s c)
        = Some ((df, g),
                World s5 c4 h2
                  (ModelReport "Ridge回归" (ridge_rmse lib g) (ridge_r2 lib g) t
                     :: rest ++ [chart])).
Proof.
  intros Hsized Hseeded Hperm df Xte.
  assert (2 ≤ length df) as Hlen by (unfold df; rewrite table_length by done; lia).
  destruct (cell2_spec lib ∅ df Hseeded Hlen) as (p & Xtr_s & Xte_s & Hfit & Htr & Hte & Hcell2).
  cbn zeta in Hcell2. fold (train_rows lib df) (test_rows lib df) in *. fold Xte in Hcell2.
  set (l1 := fresh (dom (∅ : gmap loc obj))) in *.
  set (h1 := <[l1 := DataFrame Xte]> (∅ : gmap loc obj)) in *.
  set (l2 := fresh (dom h1)) in *.
  set (g := Cell2 (Frame X_columns (features <$> df)) (rural_income <$> df)
              (Frame X_columns (features <$> train_rows lib df)) l1
              (rural_income <$> train_rows lib df) (rural_income <$> test_rows lib df) l2
              Xtr_s Xte_s) in *.
  set (h2 := <[l2 := StandardScaler (Some p)]> h1) in *.
  assert (l1 ≠ l2) as Hl.
  { intros Heq. apply (is_fresh (dom h1)). fold l2. rewrite <-Heq. unfold h1.
    rewrite dom_insert_L. set_solver. }
  destruct (cell3_spec lib g (final lib generate s) c h2 []) as (s3 & c3 & t & rest & H3 & Hrest).
  destruct (cell4_spec lib g s3 c3 h2 ([] ++ ModelReport "Ridge回归" (ridge_rmse lib g) (ridge_r2 lib g) t :: rest))
    as (s4 & chart & H4).
  pose proof (regional_loop_spec lib df g (unique (region <$> df)) s4 c3 h2
                (([] ++ ModelReport "Ridge回归" (ridge_rmse lib g) (ridge_r2 lib g) t :: rest) ++ [chart])
                Hperm eq_refl) as H5.
  fold (cell5 lib df g) in H5.
  assert (Forall (λ reg, 2 ≤ length (filter (λ r, region r = reg) df))
            (unique (region <$> df))) as Hgroups.
  { unfold df. eapply Forall_impl; [apply region_groups|].
    intros reg Hreg. simpl in Hreg. lia. }
  specialize (H5 Hgroups).
  assert (length (mean_ p) = 8) as Hp.
  { destruct (standard_fit_features lib (train_rows lib df)) as (p' & Hfit' & Hp').
    - intros Hnil. rewrite Hnil in Hfit. done.
    - by simplify_eq. }
  destruct (cell6_spec lib g (regional_reports lib df (unique (region <$> df)) s4).2 c3 h2
              ((([] ++ ModelReport "Ridge回归" (ridge_rmse lib g) (ridge_r2 lib g) t :: rest) ++ [chart])
                 ++ (regional_reports lib df (unique (region <$> df)) s4).1) Xte p)
    as (Z & s6 & delta & yb & ya & HZ & H6).
  { unfold h2. simpl. rewrite lookup_insert_ne by done. apply lookup_insert_eq. }
  { apply lookup_insert_eq. }
  { done. }
  { rewrite Hp. apply rectangular_features. }
  eexists g, p, _, _, t, rest, chart, s4, delta.
  split; [exact Hcell2|]. split; [done|]. split; [done|]. split; [done|].
  split; [|split; [|split; [|split]]].
  - unfold notebook, fresh_kernel.
    erewrite nb_bind by apply np_run_generate.
    erewrite nb_bind by apply Hcell2.
    erewrite nb_bind by exact H3. erewrite nb_bind by exact H4.
    erewrite nb_bind by exact H5. erewrite nb_bind by exact H6.
    reflexivity.
  - simpl. split; [done|]. apply is_fresh.
  - exact HZ.
  - simpl. by rewrite <-!(assoc_L (++)).
  - split; [done|]. exists c3. unfold cells_1_to_4, fresh_kernel.
    erewrite nb_bind by apply np_run_generate.
    erewrite nb_bind by apply Hcell2.
    erewrite nb_bind by exact H3. erewrite nb_bind by exact H4.
    reflexivity.
Qed.

Lemma notebook_spec (lib : library) (s : rng lib) (c : clock lib) :
  choice_sized lib → seeded_permutation_valid lib → permutation_valid lib →
  let df := table lib s in
  let Xte := Frame X_columns (features <$> test_rows lib df) in
  ∃ g p h w' t rest chart s5 delta,
    let h2 := <[scaler g := StandardScaler (Some p)]> (<[X_test g := DataFrame Xte]> ∅) in
    (∀ s' c' out, cell2 lib df (World s' c' ∅ out) = Some (g, World s' c' h2 out)) ∧
    (X g = Frame X_columns (features <$> df) ∧
     X_train g = Frame X_columns (features <$> train_rows lib df) ∧
     y_train g = rural_income <$> train_rows lib df ∧
     y_test g = rural_income <$> test_rows lib df) ∧
    X_test g ≠ scaler g ∧
    (standard_fit lib (features <$> train_rows lib df) = Some p ∧
     standard_transform p (features <$> train_rows lib df) = Some (X_train_scaled g) ∧
     standard_transform p (features <$> test_rows lib df) = Some (X_test_scaled g)) ∧
    notebook lib (fresh_kernel s c) = Some ((df, g, h), w') ∧
    (w_heap w' = <[X_sim h := DataFrame (perturbed Xte)]> h2 ∧ X_sim h ∉ dom h2) ∧
    standard_transform p (values (perturbed Xte)) = Some (X_sim_scaled h) ∧
    w_stdout w'
      = ModelReport "Ridge回归" (ridge_rmse lib g) (ridge_r2 lib g) t
          :: rest ++ [chart]
          ++ (regional_reports lib df (unique (region <$> df)) s5).1
          ++ [PolicyReport delta] ∧
    length rest = 3.
Proof.
  intros Hsized Hseeded Hperm df Xte.
  destruct (notebook_run lib s c Hsized Hseeded Hperm)
    as (g & p & h & w' & t & rest & chart & s5 & delta
        & H1 & H2 & H3 & H4 & H5 & H6 & H7 & H8 & H9 & _).
  exists g, p, h, w', t, rest, chart, s5, delta.
  exact (conj H1 (conj H2 (conj H3 (conj H4 (conj H5 (conj H6 (conj H7 (conj H8 H9)))))))).
Qed.

(** ** The scaler sees the training partition only *)

Lemma standard_fit_params (lib : library) (X : matrix) (p : scaler_params) :
  standard_fit lib X = Some p → X ≠ [] → rectangular 8 X →
  mean_ p = (λ j, mean (column j X)) <$> seq 0 8 ∧
  var_ p = (λ j, variance (column j X)) <$> seq 0 8.
Proof.
  intros Hfit Hne Hrect. destruct X as [|r X]; [done|].
  assert (length r = 8) as Hr by (by inversion Hrect).
  unfold standard_fit in Hfit. rewrite Hr in Hfit.
  rewrite decide_True in Hfit by done. injection Hfit as <-. done.
Qed.

Lemma cell2_fitted_on_train (lib : library) (heap : gmap loc obj) (df : list row) :
  seeded_permutation_valid lib → 2 ≤ length df →
  ∃ g h p,
    (∀ s c out, cell2 lib df (World s c heap out) = Some (g, World s c h out)) ∧
    X_train g = Frame X_columns (features <$> train_rows lib df) ∧
    fitted_on_train lib g h p (test_rows lib df).
Proof.
  intros Hseeded Hlen.
  destruct (cell2_spec lib heap df Hseeded Hlen) as (p & Xtr_s & Xte_s & Hfit & Htr & Hte & Hcell2).
  cbn zeta in Hcell2. fold (train_rows lib df) (test_rows lib df) in *.
  set (l1 := fresh (dom heap)) in *.
  set (h1 := <[l1 := DataFrame (Frame X_columns (features <$> test_rows lib df))]> heap) in *.
  set (l2 := fresh (dom h1)) in *.
  assert (l1 ≠ l2) as Hl.
  { intros Heq. apply (is_fresh (dom h1)). fold l2. rewrite <-Heq. unfold h1.
    rewrite dom_insert_L. set_solver. }
  assert (train_rows lib df ≠ []) as Hne.
  { intros Hnil. rewrite Hnil in Hfit. done. }
  destruct (standard_fit_params lib (features <$> train_rows lib df) p Hfit) as [Hmean Hvar].
  { by destruct (train_rows lib df). } { apply rectangular_features. }
  eexists _, _, p. split; [exact Hcell2|]. split; [done|].
  unfold fitted_on_train. simpl.
  split; [apply lookup_insert_eq|].
  split; [rewrite lookup_insert_ne by done; apply lookup_insert_eq|].
  done.
Qed.

(** C2.  Cell 2 always completes on a table of at least two rows, and what
    it leaves behind does not depend on the random state, the clock or the
    output so far.  The scaler object holds the parameters fitted on the
    training frame alone - the per-column means and variances of
    [X_train] - and the same parameters scale both [X_train] and [X_test].
    For two tables whose training frames are equal, the fitted parameters
    are equal, whatever their test rows are. *)
Theorem C2_scaler_fitted_on_train_only (lib : library)
    (Hseeded : seeded_permutation_valid lib)
    (df1 df2 : list row) (Hlen1 : 2 ≤ length df1) (Hlen2 : 2 ≤ length df2)
    (heap1 heap2 : gmap loc obj) :
  ∃ g1 h1 p1 g2 h2 p2,
    (∀ s c out, cell2 lib df1 (World s c heap1 out) = Some (g1, World s c h1 out)) ∧
    (∀ s c out, cell2 lib df2 (World s c heap2 out) = Some (g2, World s c h2 out)) ∧
    X_train g1 = Frame X_columns (features <$> train_rows lib df1) ∧
    X_train g2 = Frame X_columns (features <$> train_rows lib df2) ∧
    fitted_on_train lib g1 h1 p1 (test_rows lib df1) ∧
    fitted_on_train lib g2 h2 p2 (test_rows lib df2) ∧
    (values (X_train g1) = values (X_train g2) → p1 = p2).
Proof.
  destruct (cell2_fitted_on_train lib heap1 df1 Hseeded Hlen1) as (g1 & h1 & p1 & Hc1 & Hx1 & Hf1).
  destruct (cell2_fitted_on_train lib heap2 df2 Hseeded Hlen2) as (g2 & h2 & p2 & Hc2 & Hx2 & Hf2).
  exists g1, h1, p1, g2, h2, p2. do 6 (split; [done|]).
  intros Heq. destruct Hf1 as (_ & _ & Hfit1 & _), Hf2 as (_ & _ & Hfit2 & _).
  rewrite Heq in Hfit1. by simplify_eq.
Qed.

(** C2 on the reference instance: two tables with the same training rows
    and different test rows get the same scaler parameters. *)
Lemma C2_scaler_witness :
  seeded_permutation_valid Ref.lib ∧ 2 ≤ length sample1 ∧ 2 ≤ length sample2 ∧
  test_rows Ref.lib sample1 ≠ test_rows Ref.lib sample2 ∧
  ∃ g1 h1 p1 g2 h2 p2,
    fitted_on_train Ref.lib g1 h1 p1 (test_rows Ref.lib sample1) ∧
    fitted_on_train Ref.lib g2 h2 p2 (test_rows Ref.lib sample2) ∧
    p1 = p2.
Proof.
  assert (2 ≤ length sample1) as H1 by (vm_compute; lia).
  assert (2 ≤ length sample2) as H2 by (vm_compute; lia).
  split; [exact ref_seeded_permutation_valid|]. split; [exact H1|]. split; [exact H2|].
  split; [by vm_compute|].
  destruct (C2_scaler_fitted_on_train_only Ref.lib ref_seeded_permutation_valid
              sample1 sample2 H1 H2 ∅ ∅)
    as (g1 & h1 & p1 & g2 & h2 & p2 & _ & _ & Hx1 & Hx2 & Hf1 & Hf2 & Heq).
  exists g1, h1, p1, g2, h2, p2. split; [done|]. split; [done|].
  apply Heq. rewrite Hx1, Hx2. by vm_compute.
Defined.

(** ** The perturbed table, column by column *)

Lemma perturbed_cell (Xte : frame) (i : nat) (col : string) :
  columns Xte = X_columns → col ∈ X_columns →
  cell_of (perturbed Xte) i col
    = if decide (col = "policy_index")
      then (λ v, (v + 0.2)%Q) <$> cell_of Xte i col
      else cell_of Xte i col.
Proof.
  intros Hcols Hcol. unfold cell_of, perturbed. cbn [columns values]. rewrite Hcols.
  unfold X_columns in Hcol.
  repeat (apply elem_of_cons in Hcol as [->|Hcol];
    [match goal with
     | |- context [column_index ?c X_columns] =>
         let v := eval vm_compute in (column_index c X_columns) in
         change (column_index c X_columns) with v
     end;
     cbn [mbind option_bind]; unfold matrix; rewrite list_lookup_fmap;
     destruct (@lookup nat (list Q) (list (list Q)) _ i (values Xte)) as [r|];
     cbn [fmap option_fmap option_map mbind option_bind];
     case_decide; try discriminate; try done;
     first [apply list_lookup_alter_eq | by apply list_lookup_alter_ne]|]).
  by apply elem_of_nil in Hcol.
Qed.

Lemma perturbed_length (Xte : frame) : length (values (perturbed Xte)) = length (values Xte).
Proof. unfold perturbed. simpl. by rewrite length_fmap. Qed.

(** C3.  The notebook runs to completion from a fresh kernel.  Cell 6 binds
    [X_sim] to an object that did not exist after cell 2.  In the final
    world that object holds a table with the columns and the number of rows
    of the test table, whose every entry equals the entry of the test table
    in the same row and column, except that under [policy_index] it is 0.2
    larger.  The object [X_test] names holds what it held after cell 2, and
    so does the scaler object: its parameters are still those fitted on
    [X_train] in cell 2, and [X_sim_scaled] is the perturbed table
    transformed with them.  Assumes that numpy's [choice] returns as many
    labels as asked and that its permutations are permutations. *)
Theorem C3_policy_counterfactual (lib : library)
    (Hsized : choice_sized lib) (Hseeded : seeded_permutation_valid lib)
    (Hperm : permutation_valid lib) (s : rng lib) (c : clock lib) :
  ∃ g h w' w2 Xte Xsim p,
    cell2 lib (table lib s) (World (final lib generate s) c ∅ []) = Some (g, w2) ∧
    notebook lib (fresh_kernel s c) = Some ((table lib s, g, h), w') ∧
    (X_sim h ∉ dom (w_heap w2)) ∧
    (w_heap w2 !! X_test g = Some (DataFrame Xte) ∧
     w_heap w' !! X_test g = Some (DataFrame Xte)) ∧
    (w_heap w2 !! scaler g = Some (StandardScaler (Some p)) ∧
     w_heap w' !! scaler g = Some (StandardScaler (Some p)) ∧
     standard_fit lib (values (X_train g)) = Some p) ∧
    w_heap w' !! X_sim h = Some (DataFrame Xsim) ∧
    columns Xsim = columns Xte ∧
    length (values Xsim) = length (values Xte) ∧
    (∀ i col, col ∈ columns Xte →
       cell_of Xsim i col
         = if decide (col = "policy_index")
           then (λ v, (v + 0.2)%Q) <$> cell_of Xte i col
           else cell_of Xte i col) ∧
    standard_transform p (values Xsim) = Some (X_sim_scaled h).
Proof.
  destruct (notebook_spec lib s c Hsized Hseeded Hperm)
    as (g & p & h & w' & t & rest & chart & s5 & delta & Hcell2 & (_ & Hxtr & _) & Hne
        & (Hfit & _) & Hnb & (Hheap & Hfresh) & HZ & _).
  cbn zeta in *.
  set (Xte := Frame X_columns (features <$> test_rows lib (table lib s))) in *.
  set (h2 := <[scaler g := StandardScaler (Some p)]> (<[X_test g := DataFrame Xte]> ∅)) in *.
  exists g, h, w', (World (final lib generate s) c h2 []), Xte, (perturbed Xte), p.
  assert (X_sim h ≠ X_test g ∧ X_sim h ≠ scaler g) as [Hn1 Hn2].
  { split; intros Heq; apply Hfresh; rewrite Heq; unfold h2; rewrite !dom_insert_L.
    - apply elem_of_union_r, elem_of_union_l. by apply elem_of_singleton.
    - apply elem_of_union_l. by apply elem_of_singleton. }
  split; [apply Hcell2|]. split; [exact Hnb|]. split; [exact Hfresh|].
  rewrite Hheap. cbn [w_heap].
  split.
  { rewrite lookup_insert_ne by done. unfold h2.
    rewrite lookup_insert_ne by done. by rewrite lookup_insert_eq. }
  split.
  { rewrite lookup_insert_ne by done. unfold h2. rewrite lookup_insert_eq.
    by rewrite Hxtr. }
  split; [apply lookup_insert_eq|]. split; [done|].
  split; [apply perturbed_length|].
  split; [|exact HZ].
  intros i col Hcol. by apply perturbed_cell.
Qed.

(** C3 on the reference instance. *)
Lemma C3_policy_counterfactual_witness :
  choice_sized Ref.lib ∧ seeded_permutation_valid Ref.lib ∧ permutation_valid Ref.lib ∧
  ∃ r w', notebook Ref.lib (fresh_kernel (lib:=Ref.lib) 0%Z 0%Z) = Some (r, w').
Proof.
  split; [exact ref_choice_sized|]. split; [exact ref_seeded_permutation_valid|].
  split; [exact ref_permutation_valid|].
  destruct (C3_policy_counterfactual Ref.lib ref_choice_sized ref_seeded_permutation_valid
              ref_permutation_valid 0%Z 0%Z) as (g & h & w' & _ & _ & _ & _ & _ & Hnb & _).
  exists (table Ref.lib 0%Z, g, h), w'. exact Hnb.
Defined.

(** C8.  Two runs of the notebook, each from a fresh kernel, with whatever
    random state and clock the two processes start with: both complete, they
    build the same table and the same split and scaled data, and the first
    line either prints - the ridge regression line - carries the same RMSE
    and the same R²; only the reported duration may differ.  Assumes that
    numpy's [choice] returns as many labels as asked and that its
    permutations are permutations; ridge regression is a function of its
    training data. *)
Theorem C8_seeded_path_deterministic (lib : library)
    (Hsized : choice_sized lib) (Hseeded : seeded_permutation_valid lib)
    (Hperm : permutation_valid lib) (s1 s2 : rng lib) (c1 c2 : clock lib) :
  ∃ df g h1 w1 h2 w2 rmse r2 t1 t2,
    notebook lib (fresh_kernel s1 c1) = Some ((df, g, h1), w1) ∧
    notebook lib (fresh_kernel s2 c2) = Some ((df, g, h2), w2) ∧
    w_stdout w1 !! 0 = Some (ModelReport "Ridge回归" rmse r2 t1) ∧
    w_stdout w2 !! 0 = Some (ModelReport "Ridge回归" rmse r2 t2) ∧
    rmse = ridge_rmse lib g ∧ r2 = ridge_r2 lib g.
Proof.
  destruct (notebook_spec lib s1 c1 Hsized Hseeded Hperm)
    as (g1 & p1 & h1 & w1 & t1 & rest1 & chart1 & s51 & delta1 & Hcell1 & _ & _ & _
        & Hnb1 & _ & _ & Hout1 & _).
  destruct (notebook_spec lib s2 c2 Hsized Hseeded Hperm)
    as (g2 & p2 & h2 & w2 & t2 & rest2 & chart2 & s52 & delta2 & Hcell2 & _ & _ & _
        & Hnb2 & _ & _ & Hout2 & _).
  cbn zeta in *.
  assert (table lib s2 = table lib s1) as Htable.
  { unfold table, result. by rewrite (seed_resets lib s2 s1). }
  rewrite Htable in *.
  assert (g2 = g1) as ->.
  { specialize (Hcell1 s1 c1 []). specialize (Hcell2 s1 c1 []).
    rewrite Hcell1 in Hcell2. by simplify_eq. }
  exists (table lib s1), g1, h1, w1, h2, w2, (ridge_rmse lib g1), (ridge_r2 lib g1), t1, t2.
  split; [done|]. split; [done|]. rewrite Hout1, Hout2. done.
Qed.

(** C8 on the reference instance. *)
Lemma C8_seeded_path_witness :
  choice_sized Ref.lib ∧ seeded_permutation_valid Ref.lib ∧ permutation_valid Ref.lib ∧
  ∃ r1 w1 r2 w2,
    notebook Ref.lib (fresh_kernel (lib:=Ref.lib) 1%Z 10%Z) = Some (r1, w1) ∧
    notebook Ref.lib (fresh_kernel (lib:=Ref.lib) 2%Z 20%Z) = Some (r2, w2) ∧
    r1.1 = r2.1.
Proof.
  split; [exact ref_choice_sized|]. split; [exact ref_seeded_permutation_valid|].
  split; [exact ref_permutation_valid|].
  destruct (C8_seeded_path_deterministic Ref.lib ref_choice_sized ref_seeded_permutation_valid
              ref_permutation_valid 1%Z 2%Z 10%Z 20%Z)
    as (df & g & h1 & w1 & h2 & w2 & _ & _ & _ & _ & Hnb1 & Hnb2 & _).
  exists (df, g, h1), w1, (df, g, h2), w2.
  split; [exact Hnb1|]. split; [exact Hnb2|]. reflexivity.
Defined.

(** ** The regional step *)

Lemma filter_region_Forall (df : list row) reg :
  Forall (λ r, region r = reg) (filter (λ r, region r = reg) df).
Proof. apply Forall_forall. intros r Hr. by apply list_elem_of_filter in Hr as [? _]. Qed.

Lemma regional_reports_length (lib : library) (df : list row) (regs : list Region) s :
  length (regional_reports lib df regs s).1 = length regs.
Proof.
  revert s. induction regs as [|reg regs IH]; intros s; [done|].
  cbn [regional_reports]. destruct (regional_fit lib df reg s) as [l s1].
  specialize (IH s1). destruct (regional_reports lib df regs s1) as [ls s2].
  simpl in *. by rewrite IH.
Qed.

Lemma notebook_cells (lib : library) (w : world lib) :
  notebook lib w
    = ('(d, g) ← cells_1_to_4 lib; _ ← cell5 lib d g; h ← cell6 lib g; mret (d, g, h)) w.
Proof.
  unfold notebook, cells_1_to_4, mbind, NB_bind.
  destruct (np_run lib generate w) as [[d w1]|]; [|done].
  destruct (cell2 lib d w1) as [[g w2]|]; [|done].
  destruct (cell3 lib g w2) as [[[] w3]|]; [|done].
  by destruct (cell4 lib g w3) as [[[] w4]|].
Qed.

(** C9.  The notebook is cells 1 to 4, then the regional loop, then the
    policy cell, and it completes.  The regional loop, started in any world,
    begins at the global random state it finds: it sets no seed, leaves the
    clock and the heap alone, and appends one report for each distinct
    region of the table, in order of first appearance.  In the run of the
    notebook that state is the one cell 4 leaves, so the lines printed after
    the four model lines and the chart are the regional reports computed
    from it.  Each report is computed as [regional_fit] says: from the rows
    of that region alone, split with a permutation taken from the global
    random state, a new forest fitted on the training part and scored on the
    held-out part, the state handed on to the next region.  Whatever
    permutation numpy returns, the two parts together are exactly the rows
    of the region, the held-out part has ceil(0.2 n) of them, and every row
    of either part carries the region's label. *)
Theorem C9_regional_models (lib : library)
    (Hsized : choice_sized lib) (Hseeded : seeded_permutation_valid lib)
    (Hperm : permutation_valid lib) (s : rng lib) (c : clock lib) :
  let df := table lib s in
  let regs := unique (region <$> df) in
  ∃ g w4 h w',
    (∀ w, notebook lib w
          = ('(d, g0) ← cells_1_to_4 lib; _ ← cell5 lib d g0; h0 ← cell6 lib g0;
             mret (d, g0, h0)) w) ∧
    cells_1_to_4 lib (fresh_kernel s c) = Some ((df, g), w4) ∧
    (∀ s' c' hp out,
       cell5 lib df g (World s' c' hp out)
         = Some (tt, World (regional_reports lib df regs s').2 c' hp
                       (out ++ (regional_reports lib df regs s').1))) ∧
    notebook lib (fresh_kernel s c) = Some ((df, g, h), w') ∧
    length (w_stdout w4) = 5 ∧
    (∃ delta,
       w_stdout w'
         = w_stdout w4 ++ (regional_reports lib df regs (w_rng w4)).1 ++ [PolicyReport delta]) ∧
    take (length regs) (drop 5 (w_stdout w')) = (regional_reports lib df regs (w_rng w4)).1 ∧
    (NoDup regs ∧ ∀ reg, reg ∈ regs ↔ reg ∈ region <$> df) ∧
    ∀ reg s', reg ∈ regs →
      let sub := filter (λ r, region r = reg) df in
      let perm := (np_permutation lib (length sub) s').1 in
      test_part 0.2 perm sub ++ train_part 0.2 perm sub ≡ₚ sub ∧
      length (test_part 0.2 perm sub) = Z.to_nat (Qceiling (0.2 * inject_Z (Z.of_nat (length sub)))) ∧
      length (train_part 0.2 perm sub) = length sub - length (test_part 0.2 perm sub) ∧
      Forall (λ r, region r = reg) (train_part 0.2 perm sub) ∧
      Forall (λ r, region r = reg) (test_part 0.2 perm sub).
Proof.
  intros df regs.
  destruct (notebook_run lib s c Hsized Hseeded Hperm)
    as (g & p & h & w' & t & rest & chart & s4 & delta & _ & (HX & _) & _ & _
        & Hnb & _ & _ & Hout & Hrest & c4 & Hpre).
  cbn zeta in *. fold df regs in Hout, Hpre, Hnb.
  assert (columns (X g) = X_columns) as Hcols by (by rewrite HX).
  assert (Forall (λ reg, 2 ≤ length (filter (λ r, region r = reg) df)) regs) as Hgroups.
  { unfold regs, df. eapply Forall_impl; [apply region_groups|].
    intros reg Hreg. simpl in Hreg. lia. }
  eexists g, _, h, w'.
  split; [apply notebook_cells|]. split; [exact Hpre|].
  split.
  { intros s' c' hp out.
    exact (regional_loop_spec lib df g regs s' c' hp out Hperm Hcols Hgroups). }
  split; [exact Hnb|]. cbn [w_stdout w_rng].
  split; [cbn [length]; rewrite length_app, Hrest; done|].
  split; [exists delta; rewrite Hout; cbn [app]; by rewrite <-(assoc_L (++))|].
  split; [|split].
  - rewrite Hout. destruct rest as [|l2 [|l3 [|l4 [|? ?]]]]; try done.
    cbn [app drop].
    rewrite drop_0, <-(regional_reports_length lib df regs s4). by rewrite take_app_length.
  - apply unique_spec.
  - intros reg s' Hreg.
    set (sub := filter (λ r, region r = reg) df).
    set (perm := (np_permutation lib (length sub) s').1).
    assert (5 ≤ length sub) as Hsize.
    { pose proof (region_groups lib s) as Hgroups'.
      rewrite Forall_forall in Hgroups'. by apply Hgroups'. }
    destruct (split_parts sub 0.2 perm) as (Hpart & Hlte & Hltr & _).
    { apply n_test_lt. lia. } { apply Hperm. }
    split; [done|]. split; [done|]. split; [by rewrite Hltr, Hlte|].
    assert (Forall (λ r, region r = reg) (test_part 0.2 perm sub ++ train_part 0.2 perm sub)) as Hall.
    { rewrite Hpart. apply filter_region_Forall. }
    apply Forall_app in Hall as [? ?]. done.
Qed.

(** C9 on the reference instance: the notebook runs to the end, and its
    regional lines are the reports computed from the random state that
    cells 1 to 4 leave. *)
Lemma C9_regional_models_witness :
  choice_sized Ref.lib ∧ seeded_permutation_valid Ref.lib ∧ permutation_valid Ref.lib ∧
  ∃ g w4 h w',
    cells_1_to_4 Ref.lib (fresh_kernel (lib:=Ref.lib) 3%Z 0%Z)
      = Some ((table Ref.lib 3%Z, g), w4) ∧
    notebook Ref.lib (fresh_kernel (lib:=Ref.lib) 3%Z 0%Z)
      = Some ((table Ref.lib 3%Z, g, h), w') ∧
    take (length (unique (region <$> table Ref.lib 3%Z))) (drop 5 (w_stdout w'))
      = (regional_reports Ref.lib (table Ref.lib 3%Z)
           (unique (region <$> table Ref.lib 3%Z)) (w_rng w4)).1.
Proof.
  split; [exact ref_choice_sized|]. split; [exact ref_seeded_permutation_valid|].
  split; [exact ref_permutation_valid|].
  destruct (C9_regional_models Ref.lib ref_choice_sized ref_seeded_permutation_valid
              ref_permutation_valid 3%Z 0%Z)
    as (g & w4 & h & w' & _ & Hpre & _ & Hnb & _ & _ & Hreports & _).
  exists g, w4, h, w'. exact (conj Hpre (conj Hnb Hreports)).
Defined.

(** ** The range of [policy_index] *)

Lemma table_policy_range (np : numpy) s :
  uniform_in_range np →
  Forall (λ r, (0 <= policy_index r)%Q ∧ (policy_index r < 1)%Q) (table np s).
Proof.
  intros Hu. destruct (table_runs_honest np s) as (runs & -> & _ & Hall).
  apply Forall_fmap. eapply Forall_impl; [exact Hall|].
  intros [r ch] [(g & n & e & m & u & p & z & x & u1 & u2 & -> & _ & _ & _ & _ & _ & Hp & _) Hh].
  simpl in *. do 5 apply Forall_cons in Hh as [_ Hh]. apply Forall_cons in Hh as [Hh _].
  rewrite Hp. by apply (uniform_honest_range np).
Qed.

Lemma features_policy_cell (rows : list row) (i : nat) :
  cell_of (Frame X_columns (features <$> rows)) i "policy_index"
    = policy_index <$> rows !! i.
Proof.
  unfold cell_of. cbn [columns values].
  change (column_index "policy_index" X_columns) with (Some 5).
  cbn [mbind option_bind]. unfold matrix. rewrite list_lookup_fmap. by destruct (rows !! i).
Qed.

Lemma split_rows_subset (lib : library) (df : list row) :
  seeded_permutation_valid lib → 2 ≤ length df →
  train_rows lib df ⊆ df ∧ test_rows lib df ⊆ df.
Proof.
  intros Hseeded Hlen.
  destruct (split_parts df 0.2 (seeded_permutation lib 0 (length df))) as (Hpart & _).
  { by apply n_test_lt. } { apply Hseeded. }
  fold (train_rows lib df) (test_rows lib df) in Hpart.
  split; intros r Hr; rewrite <-Hpart; set_solver.
Qed.

(** C10.  In every generated row [policy_index] is the answer of the row's
    sixth call, a uniform draw on (0, 1), taken as it is; given that
    [uniform] respects its interval it lies in [0, 1).  After the notebook
    has run, every [policy_index] of the training and of the test table
    lies in [0, 1), every [policy_index] of the perturbed table lies in
    [0.2, 1.2), and a test row whose [policy_index] is at least 0.8 is
    perturbed to a value of at least 1, outside the fitted range. *)
Theorem C10_policy_index_range (lib : library)
    (Hsized : choice_sized lib) (Hseeded : seeded_permutation_valid lib)
    (Hperm : permutation_valid lib) (Huniform : uniform_in_range lib)
    (s : rng lib) (c : clock lib) :
  (∃ runs : list (row * list event),
     table lib s = runs.*1 ∧
     trace lib generate s
       = SeedEv 42 :: ChoiceEv [East; Central; West] 100 [0.4; 0.3; 0.3]%Q (drawn_regions lib)
           :: concat runs.*2 ∧
     Forall (λ run,
       run.2 !! 5%nat = Some (UniformEv 0 1 (policy_index run.1)) ∧
       (0 <= policy_index run.1)%Q ∧ (policy_index run.1 < 1)%Q) runs) ∧
  ∃ g h w' Xte Xsim,
    notebook lib (fresh_kernel s c) = Some ((table lib s, g, h), w') ∧
    w_heap w' !! X_test g = Some (DataFrame Xte) ∧
    w_heap w' !! X_sim h = Some (DataFrame Xsim) ∧
    (∀ i v, cell_of (X_train g) i "policy_index" = Some v → (0 <= v)%Q ∧ (v < 1)%Q) ∧
    (∀ i v, cell_of Xte i "policy_index" = Some v → (0 <= v)%Q ∧ (v < 1)%Q) ∧
    (∀ i v, cell_of Xsim i "policy_index" = Some v → (0.2 <= v)%Q ∧ (v < 1.2)%Q) ∧
    (∀ i v, cell_of Xte i "policy_index" = Some v → (0.8 <= v)%Q →
       ∃ v', cell_of Xsim i "policy_index" = Some v' ∧ (1 <= v')%Q).
Proof.
  split.
  { destruct (table_runs_honest lib s) as (runs & Ht & Htr & Hall).
    exists runs. split; [done|]. split; [done|].
    eapply Forall_impl; [exact Hall|].
    intros [r ch] [(g & n & e & m & u & p & z & x & u1 & u2 & -> & _ & _ & _ & _ & _ & Hp & _) Hh].
    simpl in *. do 5 apply Forall_cons in Hh as [_ Hh]. apply Forall_cons in Hh as [Hh _].
    rewrite Hp. split; [done|]. by apply (uniform_honest_range lib). }
  destruct (notebook_spec lib s c Hsized Hseeded Hperm)
    as (g & p & h & w' & t & rest & chart & s5 & delta & _ & (_ & Hxtr & _) & Hne
        & _ & Hnb & (Hheap & Hfresh) & _).
  cbn zeta in *.
  set (df := table lib s) in *.
  set (Xte := Frame X_columns (features <$> test_rows lib df)) in *.
  assert (2 ≤ length df) as Hlen by (unfold df; rewrite table_length by done; lia).
  destruct (split_rows_subset lib df Hseeded Hlen) as [Htrain Htest].
  pose proof (table_policy_range lib s Huniform) as Hrange. fold df in Hrange.
  rewrite Forall_forall in Hrange.
  assert (∀ rows i v, rows ⊆ df →
            cell_of (Frame X_columns (features <$> rows)) i "policy_index" = Some v →
            (0 <= v)%Q ∧ (v < 1)%Q) as Hcell.
  { intros rows i v Hsub Hv. rewrite features_policy_cell in Hv.
    destruct (rows !! i) as [r|] eqn:Hr; [|done]. injection Hv as <-.
    apply Hrange, Hsub. by eapply list_elem_of_lookup_2. }
  assert (∀ i, cell_of (perturbed Xte) i "policy_index"
               = (λ v, (v + 0.2)%Q) <$> cell_of Xte i "policy_index") as Hsim.
  { intros i. rewrite perturbed_cell; [done|done|].
    apply (bool_decide_unpack _). by vm_compute. }
  assert (X_sim h ≠ X_test g) as Hn1.
  { intros Heq. apply Hfresh. rewrite Heq, !dom_insert_L.
    apply elem_of_union_r, elem_of_union_l. by apply elem_of_singleton. }
  exists g, h, w', Xte, (perturbed Xte).
  split; [exact Hnb|]. rewrite Hheap.
  split.
  { rewrite lookup_insert_ne by done. rewrite lookup_insert_ne by done.
    by rewrite lookup_insert_eq. }
  split; [apply lookup_insert_eq|].
  split; [rewrite Hxtr; intros i v; by apply Hcell|].
  split; [intros i v; by apply Hcell|].
  split.
  - intros i v. rewrite Hsim. destruct (cell_of Xte i "policy_index") as [v0|] eqn:Hv0; [|done].
    intros [= <-]. destruct (Hcell _ i v0 Htest Hv0). split; lra.
  - intros i v Hv Hge. exists (v + 0.2)%Q. rewrite Hsim, Hv. split; [done|lra].
Qed.

(** C10 on the reference instance. *)
Lemma C10_policy_index_witness :
  choice_sized Ref.lib ∧ seeded_permutation_valid Ref.lib ∧ permutation_valid Ref.lib ∧
  uniform_in_range Ref.lib ∧
  Forall (λ r, (0 <= policy_index r)%Q ∧ (policy_index r < 1)%Q) (table Ref.lib 4%Z).
Proof.
  split; [exact ref_choice_sized|]. split; [exact ref_seeded_permutation_valid|].
  split; [exact ref_permutation_valid|]. split; [exact ref_uniform_in_range|].
  destruct (C10_policy_index_range Ref.lib ref_choice_sized ref_seeded_permutation_valid
              ref_permutation_valid ref_uniform_in_range 4%Z 0%Z)
    as [(runs & -> & _ & Hall) _].
  apply Forall_fmap. eapply Forall_impl; [exact Hall|]. by intros run (_ & ? & ?).
Defined.

(** * Further properties of the notebook *)

(** ** Order of the rows and of the draws *)

Lemma lookup_blocks (yrs : list Z) (l : list (string * Region)) (i : nat) k :
  yrs ≠ [] → (l ≫= block yrs) !! i = Some k →
  ∃ cr yr,
    l !! (i / length yrs) = Some cr ∧ yrs !! (i mod length yrs) = Some yr ∧
    k = (cr.1, cr.2, yr).
Proof.
  intros Hyrs. assert (length yrs ≠ 0) as Hn by (by destruct yrs).
  revert i. induction l as [|cr l IH]; intros i Hi; [done|].
  rewrite bind_cons in Hi. apply lookup_app_Some in Hi as [Hi|[Hle Hi]].
  - pose proof (lookup_lt_Some _ _ _ Hi) as Hlt. rewrite block_length in Hlt.
    unfold block in Hi. rewrite list_lookup_fmap in Hi.
    destruct (yrs !! i) as [yr|] eqn:Hyr; [|done]. injection Hi as <-.
    exists cr, yr. rewrite Nat.div_small, Nat.mod_small by done. done.
  - rewrite block_length in Hle, Hi. destruct (IH _ Hi) as (cr' & yr & Hcr & Hyr & ->).
    exists cr', yr.
    replace i with ((i - length yrs) + 1 * length yrs) at 1 2 by lia.
    rewrite Nat.div_add, Nat.Div0.mod_add by done.
    rewrite Nat.add_1_r. done.
Qed.

(** The rows of the table are in the order of the loops: row [i] (counting
    from 0) belongs to the city numbered [i / 5 + 1], its year is
    [2018 + i mod 5], and its label is the one drawn at position [i / 5]. *)
Theorem rows_in_loop_order (np : numpy) (s : rng np) (i : nat) (r : row) :
  table np s !! i = Some r →
  city r = "City_" +:+ pretty (i / 5 + 1)%nat ∧
  year r = (2018 + Z.of_nat (i mod 5))%Z ∧
  drawn_regions np !! (i / 5)%nat = Some (region r) ∧
  i / 5 < 100.
Proof.
  intros Hi.
  assert ((key_of <$> table np s) !! i = Some (key_of r)) as Hk.
  { by rewrite list_lookup_fmap, Hi. }
  rewrite table_keys in Hk. unfold keys in Hk.
  apply lookup_blocks in Hk as ([c reg] & yr & Hcr & Hyr & Hkey); [|done].
  change (length (range 2018 2023)) with 5 in *.
  apply lookup_zip_Some in Hcr as [Hc Hreg].
  unfold key_of in Hkey. simpl in Hkey. injection Hkey as -> -> ->.
  unfold cities in Hc. rewrite list_lookup_fmap in Hc.
  destruct (seq 0 100 !! (i / 5)) as [j|] eqn:Hj; [|done].
  apply lookup_seq in Hj as [-> Hlt]. injection Hc as <-.
  unfold range in Hyr. apply lookup_seqZ in Hyr as [-> _].
  done.
Qed.

(** The eighth row on the reference instance. *)
Lemma rows_in_loop_order_witness :
  ∃ r, table Ref.numpy 0%Z !! 7%nat = Some r ∧ city r = "City_2" ∧ year r = 2020%Z.
Proof.
  destruct (table Ref.numpy 0%Z !! 7%nat) as [r|] eqn:Hr; [|by vm_compute in Hr].
  exists r. split; [done|].
  destruct (rows_in_loop_order Ref.numpy 0%Z 7 r Hr) as (Hc & Hy & _).
  split; [exact Hc|exact Hy].
Defined.





(** ** Rows per region *)

Lemma filter_block_region_ne yrs c reg reg' :
  reg' ≠ reg →
  filter (λ k : string * Region * Z, k.1.2 = reg) (block yrs (c, reg')) = [].
Proof.
  intros Hne. induction yrs as [|yr yrs IH]; [done|].
  change (block (yr :: yrs) (c, reg')) with ((c, reg', yr) :: block yrs (c, reg')).
  by rewrite filter_cons_False.
Qed.

Lemma blocks_region_count yrs (l : list (string * Region)) reg :
  length (filter (λ k : string * Region * Z, k.1.2 = reg) (l ≫= block yrs))
    = length yrs * length (filter (λ cr : string * Region, cr.2 = reg) l).
Proof.
  induction l as [|[c reg'] l IH]; [simpl; lia|].
  rewrite bind_cons, filter_app, length_app, IH, filter_cons. simpl.
  destruct (decide (reg' = reg)) as [->|Hne].
  - rewrite filter_block_region, block_length. simpl. lia.
  - rewrite filter_block_region_ne by done. simpl. lia.
Qed.

(** The rows that carry a region label are five for each city that was
    paired with that label; so a region that occurs in the table has at
    least five rows, and the regional split of cell 5 never gets a table too
    small to split.  Nothing is assumed about numpy. *)
Theorem region_row_count (np : numpy) (s : rng np) (reg : Region) :
  length (filter (λ r, region r = reg) (table np s))
    = 5 * length (filter (λ cr : string * Region, cr.2 = reg)
                    (zip cities (drawn_regions np))) ∧
  (reg ∈ region <$> table np s →
   5 ≤ length (filter (λ r, region r = reg) (table np s)) ∧
   n_test_of 0.2 (length (filter (λ r, region r = reg) (table np s)))
     < length (filter (λ r, region r = reg) (table np s))).
Proof.
  assert (length (filter (λ r, region r = reg) (table np s))
          = 5 * length (filter (λ cr : string * Region, cr.2 = reg)
                          (zip cities (drawn_regions np)))) as Hcount.
  { rewrite <-(length_fmap key_of), filter_region_key_of, table_keys.
    unfold keys. by rewrite blocks_region_count. }
  split; [exact Hcount|]. intros Hreg.
  assert (5 ≤ length (filter (λ r, region r = reg) (table np s))) as Hfive.
  { destruct (filter (λ cr : string * Region, cr.2 = reg) (zip cities (drawn_regions np)))
      as [|cr l] eqn:Hf; [|simpl in Hcount; lia].
    exfalso. apply list_elem_of_fmap in Hreg as (r & -> & Hr).
    assert (r ∈ filter (λ r0, region r0 = region r) (table np s)) as Hin.
    { by apply list_elem_of_filter. }
    simpl in Hcount. apply nil_length_inv in Hcount. rewrite Hcount in Hin.
    by apply elem_of_nil in Hin. }
  split; [done|]. apply n_test_lt. lia.
Qed.

(** ** Sizes of the split *)

Lemma standard_transform_length (p : scaler_params) (X Z : matrix) :
  standard_transform p X = Some Z → length Z = length X.
Proof.
  unfold standard_transform. case_decide; [|done]. intros [= <-]. by rewrite length_fmap.
Qed.

(** On the 500-row table cell 2 puts 400 rows in the training partition
    and 100 in the test partition; the features and targets of each
    partition have these sizes, scaled or not, and the two partitions
    together are exactly the rows of the table. *)
Theorem split_sizes (lib : library) (Hsized : choice_sized lib)
    (Hseeded : seeded_permutation_valid lib) (s : rng lib) (heap : gmap loc obj) :
  ∃ g h Xte,
    (∀ s' c out,
       cell2 lib (table lib s) (World s' c heap out) = Some (g, World s' c h out)) ∧
    h !! X_test g = Some (DataFrame Xte) ∧
    (length (values (X_train g)) = 400 ∧ length (y_train g) = 400 ∧
     length (X_train_scaled g) = 400) ∧
    (length (values Xte) = 100 ∧ length (y_test g) = 100 ∧
     length (X_test_scaled g) = 100) ∧
    values Xte ++ values (X_train g) ≡ₚ values (X g) ∧
    y_test g ++ y_train g ≡ₚ y g.
Proof.
  assert (length (table lib s) = 500) as Hlen by (by apply table_length).
  assert (2 ≤ length (table lib s)) as Hlen2 by lia.
  destruct (cell2_spec lib heap (table lib s) Hseeded Hlen2)
    as (p & Xtr_s & Xte_s & Hfit & Htr & Hte & Hcell2).
  cbn zeta in Hcell2. fold (train_rows lib (table lib s)) (test_rows lib (table lib s)) in *.
  destruct (split_parts (table lib s) 0.2 (seeded_permutation lib 0 (length (table lib s))))
    as (Hpart & Hlte & Hltr & _).
  { by apply n_test_lt. } { apply Hseeded. }
  fold (train_rows lib (table lib s)) (test_rows lib (table lib s)) in Hpart, Hlte, Hltr.
  rewrite Hlen in Hlte, Hltr.
  change (n_test_of 0.2 500) with 100 in Hlte, Hltr. simpl in Hltr.
  apply standard_transform_length in Htr, Hte. rewrite length_fmap in Htr, Hte.
  set (l1 := fresh (dom heap)) in *.
  set (h1 := <[l1 := DataFrame (Frame X_columns (features <$> test_rows lib (table lib s)))]> heap) in *.
  set (l2 := fresh (dom h1)) in *.
  assert (l1 ≠ l2) as Hl.
  { intros Heq. apply (is_fresh (dom h1)). fold l2. rewrite <-Heq. unfold h1.
    rewrite dom_insert_L. apply elem_of_union_l. by apply elem_of_singleton. }
  eexists _, _, _. split; [exact Hcell2|]. cbn [X_test X_train y_train y_test X y
    X_train_scaled X_test_scaled values].
  split; [rewrite lookup_insert_ne by done; apply lookup_insert_eq|].
  cbn [values]. rewrite !length_fmap.
  split; [by rewrite Htr, Hltr|]. split; [by rewrite Hte, Hlte|].
  rewrite <-!fmap_app. by rewrite Hpart.
Qed.

(** The split on the reference instance. *)
Lemma split_sizes_witness :
  choice_sized Ref.lib ∧ seeded_permutation_valid Ref.lib ∧
  ∃ g, length (y_train g) = 400 ∧ length (y_test g) = 100.
Proof.
  split; [exact ref_choice_sized|]. split; [exact ref_seeded_permutation_valid|].
  destruct (split_sizes Ref.lib ref_choice_sized ref_seeded_permutation_valid 0%Z ∅)
    as (g & h & Xte & _ & _ & (_ & Htr & _) & (_ & Hte & _) & _).
  exists g. split; [exact Htr|exact Hte].
Defined.

(** ** The scaled counterfactual *)

Lemma standard_fit_lengths (lib : library) (X : matrix) (p : scaler_params) :
  standard_fit lib X = Some p → rectangular 8 X →
  length (mean_ p) = 8 ∧ length (scale_ p) = 8.
Proof.
  intros Hfit Hrect. destruct X as [|r X]; [done|].
  assert (length r = 8) as Hr by (by inversion Hrect).
  unfold standard_fit in Hfit. rewrite Hr in Hfit.
  rewrite decide_True in Hfit by done. injection Hfit as <-. done.
Qed.

Lemma transform_perturbed (p : scaler_params) (X Z Z' : matrix) :
  length (mean_ p) = 8 → length (scale_ p) = 8 →
  standard_transform p X = Some Z →
  standard_transform p ((λ r, alter (λ x, (x + 0.2)%Q) 5 r) <$> X) = Some Z' →
  ∀ i row row', Z !! i = Some row → Z' !! i = Some row' →
    (∀ j, j ≠ 5 → row' !! j = row !! j) ∧
    ∃ x x' sc,
      row !! 5 = Some x ∧ row' !! 5 = Some x' ∧ scale_ p !! 5 = Some sc ∧
      (x' == x + 0.2 / sc)%Q.
Proof.
  intros Hm Hs HZ HZ' i row row' Hrow Hrow'.
  unfold standard_transform in HZ, HZ'. rewrite Hm in HZ, HZ'.
  destruct (decide (rectangular 8 X)) as [Hrect|]; [|done].
  destruct (decide (rectangular 8 _)) as [_|]; [|done].
  injection HZ as <-. injection HZ' as <-.
  unfold matrix in *. rewrite !list_lookup_fmap in Hrow'. rewrite list_lookup_fmap in Hrow.
  destruct (X !! i) as [r|] eqn:Hr; [|done]. simpl in Hrow, Hrow'.
  injection Hrow as <-. injection Hrow' as <-.
  assert (length r = 8) as Hlen.
  { unfold rectangular in Hrect. rewrite Forall_forall in Hrect.
    apply Hrect. by eapply list_elem_of_lookup_2. }
  split.
  - intros j Hj. rewrite !lookup_zip_with. by rewrite list_lookup_alter_ne.
  - destruct (lookup_lt_is_Some_2 r 5) as [x Hx]; [lia|].
    destruct (lookup_lt_is_Some_2 (mean_ p) 5) as [m Hmean]; [lia|].
    destruct (lookup_lt_is_Some_2 (scale_ p) 5) as [sc Hsc]; [lia|].
    exists ((x - m) / sc)%Q, ((x + 0.2 - m) / sc)%Q, sc.
    rewrite !lookup_zip_with, list_lookup_alter_eq, Hx. simpl.
    unfold vec in *. rewrite Hmean. simpl. rewrite Hsc. simpl.
    split; [done|]. split; [done|]. split; [done|].
    unfold Qdiv. ring.
Qed.

(** After the notebook has run, the scaled perturbed array has as many rows
    as the scaled test array, and in every row all entries but the sixth
    ([policy_index]) are equal to those of the scaled test row, while the
    sixth is larger by 0.2 divided by the scale the scaler fitted for that
    column. *)
Theorem scaled_counterfactual (lib : library)
    (Hsized : choice_sized lib) (Hseeded : seeded_permutation_valid lib)
    (Hperm : permutation_valid lib) (s : rng lib) (c : clock lib) :
  ∃ g h w' p,
    notebook lib (fresh_kernel s c) = Some ((table lib s, g, h), w') ∧
    w_heap w' !! scaler g = Some (StandardScaler (Some p)) ∧
    length (X_sim_scaled h) = length (X_test_scaled g) ∧
    ∀ i row row', X_test_scaled g !! i = Some row → X_sim_scaled h !! i = Some row' →
      (∀ j, j ≠ 5 → row' !! j = row !! j) ∧
      ∃ x x' sc,
        row !! 5 = Some x ∧ row' !! 5 = Some x' ∧ scale_ p !! 5 = Some sc ∧
        (x' == x + 0.2 / sc)%Q.
Proof.
  destruct (notebook_spec lib s c Hsized Hseeded Hperm)
    as (g & p & h & w' & t & rest & chart & s5 & delta & _ & _ & Hne
        & (Hfit & _ & Hte) & Hnb & (Hheap & Hfresh) & HZ & _).
  cbn zeta in *.
  destruct (standard_fit_lengths lib _ p Hfit (rectangular_features _)) as [Hm Hs].
  assert (X_sim h ≠ scaler g) as Hn.
  { intros Heq. apply Hfresh. rewrite Heq, dom_insert_L.
    apply elem_of_union_l. by apply elem_of_singleton. }
  exists g, h, w', p. split; [exact Hnb|]. split.
  { rewrite Hheap. rewrite lookup_insert_ne by done. apply lookup_insert_eq. }
  split.
  { apply standard_transform_length in Hte, HZ.
    rewrite Hte, HZ. apply perturbed_length. }
  intros i row row'. by apply (transform_perturbed p _ _ _ Hm Hs Hte HZ).
Qed.

(** The scaled counterfactual on the reference instance. *)
Lemma scaled_counterfactual_witness :
  choice_sized Ref.lib ∧ seeded_permutation_valid Ref.lib ∧ permutation_valid Ref.lib ∧
  ∃ g h, length (X_sim_scaled h) = length (X_test_scaled g).
Proof.
  split; [exact ref_choice_sized|]. split; [exact ref_seeded_permutation_valid|].
  split; [exact ref_permutation_valid|].
  destruct (scaled_counterfactual Ref.lib ref_choice_sized ref_seeded_permutation_valid
              ref_permutation_valid 0%Z 0%Z) as (g & h & w' & p & _ & _ & Hlen & _).
  exists g, h. exact Hlen.
Defined.
